(** * Bingo-Ferrari: the balance monitor, its trading rule and its hash chain

    A shallow embedding of [src/main.py]: the in-memory hash chain
    ([create_block]), the balance bookkeeping of [monitor_loop]
    ([get_nonzero_balances], [prev_balances], [prev_onchain_btc]), the
    buy/sell rule, and the three Flask handlers.

    Python values are modelled as follows.
    - [float] is IEEE 754 binary64: [spec_float] with [prec = 53] and
      [emax = 1024], the operations being the ones of [SpecFloat].
    - [str] is [string], read as a sequence of code points below 256.
    - JSON documents (request bodies, exchange and explorer answers, the
      [operation] dictionaries) are [pyval].
    - [dict] used as a record with fixed keys (a block) is a [Record]; a
      [dict] used as a map with [str] keys is a [gmap string _]; a [dict]
      whose insertion order is observed is an association list.
    - Network calls ([requests.get], [requests.post]) and [time.time] are
      inputs of the step they belong to: each step takes the answers it
      receives as an environment record.
    - An exception is a value of [exn]; code that may raise returns a
      [result].
    - The log file is the list of the records the program writes with
      [logging.info] and [logging.error]. What is printed on the console is
      left out, and so is what Flask and werkzeug write to the same file:
      the access line of a request and the record of an exception that
      escapes a handler.
    - The loop and the handlers run in threads. [step] and [run] take a pass
      of the loop and a request one at a time; two calls of [create_block]
      that overlap are modelled apart ([build_block], [append_block],
      [overlapping_calls]).
    The interpreter functions the program calls ([hashlib.sha256],
    [hmac.new], [json.dumps], [float.__repr__], [float(...)]) are modelled
    in the modules [SHA256], [HMAC], [Float] and [Json] and checked against
    the outputs of the interpreter on known inputs. *)

From Stdlib Require Import ZArith List String Ascii Bool Lia SpecFloat.
From stdpp Require Import gmap strings sorting.
Import ListNotations.
Local Open Scope Z_scope.

(** * Exceptions *)

Inductive exn : Type :=
| TypeError
| ValueError
| KeyError
| AttributeError
| OverflowError
| ZeroDivisionError
| External (msg : string).   (* raised by [requests]: HTTP status, timeout, bad JSON *)

Inductive result (A : Type) : Type :=
| Ok (a : A)
| Raise (e : exn).
Arguments Ok {A} a.
Arguments Raise {A} e.

Definition bind {A B : Type} (r : result A) (k : A -> result B) : result B :=
  match r with
  | Ok a => k a
  | Raise e => Raise e
  end.

Notation "'let*' x ':=' r 'in' k" := (bind r (fun x => k))
  (at level 10, x name, r at level 100, k at level 200).

(** * binary64 floats *)

Module Float.

Definition float : Type := spec_float.
Definition prec : Z := 53.
Definition emax : Z := 1024.

Definition add : float -> float -> float := SFadd prec emax.
Definition sub : float -> float -> float := SFsub prec emax.
Definition mul : float -> float -> float := SFmul prec emax.
Definition div : float -> float -> float := SFdiv prec emax.
Definition ltb : float -> float -> bool := SFltb.
Definition leb : float -> float -> bool := SFleb.
Definition eqb : float -> float -> bool := SFeqb.
Definition zero : float := S754_zero false.
Definition one : float := S754_finite false 4503599627370496 (-52).
Definition nan : float := S754_nan.

Definition is_zero (x : float) : bool :=
  match x with S754_zero _ => true | _ => false end.
Definition is_finite (x : float) : bool :=
  match x with S754_zero _ | S754_finite _ _ _ => true | _ => false end.

(** [x / y] on floats: [ZeroDivisionError] when [y] is a zero. *)
Definition truediv (x y : float) : result float :=
  if is_zero y then Raise ZeroDivisionError else Ok (div x y).

(** [float(n)] for an [int]: rounded to nearest even, [OverflowError] when
    the rounded value is not finite. *)
Definition of_int (z : Z) : result float :=
  match binary_normalize prec emax z 0 false with
  | S754_infinity _ => Raise OverflowError
  | f => Ok f
  end.

(** A literal integer constant of the source, as the float it compares
    equal to. *)
Definition of_Z (z : Z) : float := binary_normalize prec emax z 0 false.

(** Decimal digits of a non-negative integer, most significant first. *)
Fixpoint digits_go (fuel : nat) (n : Z) (acc : list Z) : list Z :=
  match fuel with
  | O => acc
  | S fuel' => if n <? 10 then n :: acc
               else digits_go fuel' (n / 10) (n mod 10 :: acc)
  end.

Definition digits_of_Z (n : Z) : list Z :=
  digits_go (S (Z.to_nat (Z.log2 n))) n [].

Definition digit_char (d : Z) : ascii := ascii_of_N (Z.to_N (48 + d)).

Definition digits_string (ds : list Z) : string :=
  string_of_list_ascii (map digit_char ds).

Definition Z_to_string (z : Z) : string :=
  if z <? 0 then "-" +:+ digits_string (digits_of_Z (- z))
  else digits_string (digits_of_Z z).

(** ** Shortest digits that read back as the same float

    The digit loop of [_Py_dg_dtoa] in mode 0, on exact integers: the float
    is [b / s], half the gap to the next float below is [mlo / s] and above
    is [mhi / s]. *)

Fixpoint log10_up (fuel : nat) (b s k : Z) : Z :=
  match fuel with
  | O => k
  | S f => if 10 * s <=? b then log10_up f b (10 * s) (k + 1) else k
  end.

Fixpoint log10_down (fuel : nat) (b s k : Z) : Z :=
  match fuel with
  | O => k
  | S f => if b <? s then log10_down f (10 * b) s (k - 1) else k
  end.

(** [floor (log10 (b / s))] for positive [b] and [s] within binary64 range. *)
Definition ilog10 (b s : Z) : Z :=
  if s <=? b then log10_up 400 b s 0 else log10_down 400 b s 0.

(** [roundoff]: drop the trailing nines of the digits written so far (held
    in reverse) and bump the digit before them; [None] when all were nines. *)
Fixpoint roundoff (rev_digits : list Z) : option (list Z) :=
  match rev_digits with
  | [] => None
  | d :: r => if d =? 9 then roundoff r else Some (d + 1 :: r)
  end.

Inductive step_result : Type :=
| Last (d : Z)
| RoundUp
| More (d : Z).

Definition digit_step (even : bool) (b s mlo mhi : Z) : step_result :=
  let dig := b / s in
  let r := b mod s in
  let j := r ?= mlo in
  let j1 := if s - mhi <? 0 then Gt else r ?= s - mhi in
  let low_ok := match j with Lt => true | Eq => even | Gt => false end in
  if (match j1 with Eq => even | _ => false end) then
    if dig =? 9 then RoundUp
    else Last (match j with Gt => dig + 1 | _ => dig end)
  else if low_ok then
    if r =? 0 then Last dig
    else match j1 with
         | Gt =>
             let up := match 2 * r ?= s with
                       | Gt => true | Eq => Z.odd dig | Lt => false end in
             if up then (if dig =? 9 then RoundUp else Last (dig + 1))
             else Last dig
         | _ => Last dig
         end
  else match j1 with
       | Gt => if dig =? 9 then RoundUp else Last (dig + 1)
       | _ => More dig
       end.

Fixpoint digit_loop (fuel : nat) (even : bool) (b s mlo mhi : Z)
    (acc : list Z) (k : Z) : list Z * Z :=
  match fuel with
  | O => (rev acc, k)
  | S f =>
      match digit_step even b s mlo mhi with
      | Last d => (rev (d :: acc), k)
      | RoundUp =>
          match roundoff acc with
          | None => ([1], k + 1)
          | Some acc' => (rev acc', k)
          end
      | More d =>
          digit_loop f even (10 * (b mod s)) s (10 * mlo) (10 * mhi) (d :: acc) k
      end
  end.

(** Digits [d0 d1 ...] and exponent [k] of the positive float [m * 2^e]:
    it prints as [d0.d1d2... * 10^k]. *)
Definition shortest_digits (m : positive) (e : Z) : list Z * Z :=
  let boundary := (Z.pos m =? 2 ^ 52) && (-1074 <? e) in
  let sh := if boundary then 2 else 1 in
  let '(b0, s0, mlo0, mhi0) :=
    if 0 <=? e then
      (Z.pos m * 2 ^ e * 2 ^ sh, 2 ^ sh, 2 ^ e, 2 ^ (e + sh - 1))
    else
      (Z.pos m * 2 ^ sh, 2 ^ (sh - e), 1, 2 ^ (sh - 1)) in
  let k := ilog10 b0 s0 in
  let '(b, s, mlo, mhi) :=
    if 0 <=? k then (b0, s0 * 10 ^ k, mlo0, mhi0)
    else (b0 * 10 ^ (- k), s0, mlo0 * 10 ^ (- k), mhi0 * 10 ^ (- k)) in
  digit_loop 20 (Z.even (Z.pos m)) b s mlo mhi [] k.

(** ** [float.__repr__] *)

Definition exp_string (x : Z) : string :=
  let a := Z.abs x in
  (if x <? 0 then "-" else "+") +:+
  (if a <? 10 then "0" else "") +:+ Z_to_string a.

(** Format code ['r']: exponent form when the decimal point falls at or
    before [-4] or after [16], fixed form (with a [.0] when there are no
    decimals) otherwise. *)
Definition format_r (ds : list Z) (k : Z) : string :=
  let decpt := k + 1 in
  let n := Z.of_nat (length ds) in
  if (decpt <=? -4) || (16 <? decpt) then
    digits_string (firstn 1 ds) +:+
    (if 1 <? n then "." +:+ digits_string (skipn 1 ds) else "") +:+
    "e" +:+ exp_string k
  else if decpt <=? 0 then
    "0." +:+ digits_string (repeat 0 (Z.to_nat (- decpt))) +:+ digits_string ds
  else if decpt <? n then
    digits_string (firstn (Z.to_nat decpt) ds) +:+ "." +:+
    digits_string (skipn (Z.to_nat decpt) ds)
  else
    digits_string ds +:+ digits_string (repeat 0 (Z.to_nat (decpt - n))) +:+ ".0".

Definition repr (x : float) : string :=
  match x with
  | S754_zero s => if s then "-0.0" else "0.0"
  | S754_infinity s => if s then "-inf" else "inf"
  | S754_nan => "nan"
  | S754_finite s m e =>
      let '(ds, k) := shortest_digits m e in
      (if s then "-" else "") +:+ format_r ds k
  end.

(** ** [float(s)] for a [str] *)

(** The float nearest to [d * 10^x], ties to even. *)
Definition of_fraction (neg : bool) (d : Z) (x : Z) : float :=
  match d with
  | Z0 => S754_zero neg
  | Z.pos p =>
      if 0 <=? x then
        binary_normalize prec emax (if neg then - (d * 10 ^ x) else d * 10 ^ x) 0 false
      else
        div (S754_finite neg p 0) (S754_finite false (Z.to_pos (10 ^ (- x))) 0)
  | Z.neg _ => S754_nan
  end.

Definition code (c : ascii) : Z := Z.of_N (N_of_ascii c).
Definition is_digit (c : Z) : bool := (48 <=? c) && (c <=? 57).
Definition is_space (c : Z) : bool := ((9 <=? c) && (c <=? 13)) || (c =? 32).
Definition lower (c : Z) : Z := if (65 <=? c) && (c <=? 90) then c + 32 else c.

Fixpoint drop_spaces (cs : list Z) : list Z :=
  match cs with
  | c :: r => if is_space c then drop_spaces r else cs
  | [] => []
  end.

Definition strip (cs : list Z) : list Z :=
  rev (drop_spaces (rev (drop_spaces cs))).

(** An underscore may only stand between two digits; it is dropped. *)
Fixpoint drop_underscores (prev : Z) (cs : list Z) : option (list Z) :=
  match cs with
  | [] => if prev =? 95 then None else Some []
  | c :: r =>
      if c =? 95 then
        if is_digit prev then drop_underscores c r else None
      else if (prev =? 95) && negb (is_digit c) then None
      else option_map (cons c) (drop_underscores c r)
  end.

Fixpoint span_digits (cs : list Z) (acc : Z) (n : Z) : Z * Z * list Z :=
  match cs with
  | c :: r => if is_digit c then span_digits r (10 * acc + (c - 48)) (n + 1)
              else (acc, n, cs)
  | [] => (acc, n, [])
  end.

Definition read_sign (cs : list Z) : bool * list Z :=
  match cs with
  | 45 :: r => (true, r)
  | 43 :: r => (false, r)
  | _ => (false, cs)
  end.

Definition read_exponent (cs : list Z) : option Z :=
  match cs with
  | [] => Some 0
  | c :: r =>
      if lower c =? 101 then
        let '(neg, r1) := read_sign r in
        match span_digits r1 0 0 with
        | (x, n, []) => if 0 <? n then Some (if neg then - x else x) else None
        | _ => None
        end
      else None
  end.

Definition codes_of_string (s : string) : list Z :=
  map code (list_ascii_of_string s).

Definition codes_eqb (a b : list Z) : bool :=
  (length a =? length b)%nat && forallb (fun p => fst p =? snd p) (combine a b).

Definition read_number (neg : bool) (cs : list Z) : option float :=
  let '(ip, n1, r1) := span_digits cs 0 0 in
  let '(d, n2, r2) :=
    match r1 with
    | 46 :: r => span_digits r ip 0
    | _ => (ip, 0, r1)
    end in
  if 0 <? n1 + n2 then
    match read_exponent r2 with
    | Some x => Some (of_fraction neg d (x - n2))
    | None => None
    end
  else
    let w := map lower cs in
    if codes_eqb w (codes_of_string "inf") || codes_eqb w (codes_of_string "infinity")
    then Some (S754_infinity neg)
    else if codes_eqb w (codes_of_string "nan") then Some S754_nan
    else None.

(** [None] stands for [ValueError]. The two spaces above 127 (NEL, NBSP) are
    turned into blanks before the ends are stripped. *)
Definition of_string (s : string) : option float :=
  let cs := map (fun z => if (z =? 133) || (z =? 160) then 32 else z)
                (codes_of_string s) in
  match drop_underscores 0 (strip cs) with
  | Some cs' => let '(neg, r) := read_sign cs' in read_number neg r
  | None => None
  end.

End Float.

Abbreviation float := Float.float.

(** * SHA-256 (FIPS 180-4) on byte strings *)

Module SHA256.

Definition mask32 : Z := 2 ^ 32.
Definition add32 (x y : Z) : Z := (x + y) mod mask32.
Definition rotr (n x : Z) : Z :=
  Z.lor (Z.shiftr x n) (Z.shiftl x (32 - n) mod mask32).
Definition not32 (x : Z) : Z := mask32 - 1 - x.

Definition Ch (x y z : Z) : Z := Z.lxor (Z.land x y) (Z.land (not32 x) z).
Definition Maj (x y z : Z) : Z :=
  Z.lxor (Z.lxor (Z.land x y) (Z.land x z)) (Z.land y z).
Definition bsig0 (x : Z) : Z := Z.lxor (Z.lxor (rotr 2 x) (rotr 13 x)) (rotr 22 x).
Definition bsig1 (x : Z) : Z := Z.lxor (Z.lxor (rotr 6 x) (rotr 11 x)) (rotr 25 x).
Definition ssig0 (x : Z) : Z := Z.lxor (Z.lxor (rotr 7 x) (rotr 18 x)) (Z.shiftr x 3).
Definition ssig1 (x : Z) : Z := Z.lxor (Z.lxor (rotr 17 x) (rotr 19 x)) (Z.shiftr x 10).

Definition is_prime (n : Z) : bool :=
  (1 <? n) &&
  forallb (fun d => negb (n mod d =? 0))
          (map Z.of_nat (seq 2 (Z.to_nat (Z.sqrt n) - 1))).

(** The first sixty-four primes. *)
Definition primes : list Z :=
  Eval vm_compute in firstn 64 (filter is_prime (map Z.of_nat (seq 2 400))).

Fixpoint icbrt_bits (bits : nat) (n r : Z) : Z :=
  match bits with
  | O => r
  | S b => let c := r + 2 ^ Z.of_nat b in
           icbrt_bits b n (if c * c * c <=? n then c else r)
  end.

(** Integer cube root, for arguments below [2^120]. *)
Definition icbrt (n : Z) : Z := icbrt_bits 40 n 0.

(** The round constants: the first 32 bits of the fractional parts of the
    cube roots of the first 64 primes. *)
Definition K : list Z :=
  Eval vm_compute in map (fun p => icbrt (p * 2 ^ 96) mod mask32) primes.

(** The initial hash value: the same of the square roots of the first 8. *)
Definition H0 : list Z :=
  Eval vm_compute in map (fun p => Z.sqrt (p * 2 ^ 64) mod mask32) (firstn 8 primes).

Definition pad (msg : list Z) : list Z :=
  let l := Z.of_nat (length msg) in
  let k := (55 - l) mod 64 in
  msg ++ [128] ++ repeat 0 (Z.to_nat k)
      ++ map (fun i => Z.shiftr (8 * l) (8 * (7 - Z.of_nat i)) mod 256) (seq 0 8).

Fixpoint words (bs : list Z) (n : nat) : list Z :=
  match n, bs with
  | S n', b0 :: b1 :: b2 :: b3 :: r =>
      (((b0 * 256 + b1) * 256 + b2) * 256 + b3) :: words r n'
  | _, _ => []
  end.

Fixpoint schedule (n : nat) (w : list Z) : list Z :=
  match n with
  | O => w
  | S n' =>
      let t := length w in
      let g i := nth (t - i) w 0 in
      schedule n'
        (w ++ [add32 (add32 (add32 (ssig1 (g 2%nat)) (g 7%nat)) (ssig0 (g 15%nat)))
                     (g 16%nat)])
  end.

Record regs : Type :=
  Regs { ra : Z; rb : Z; rc : Z; rd : Z; re : Z; rf : Z; rg : Z; rh : Z }.

Definition round (s : regs) (kw : Z * Z) : regs :=
  let '(k, w) := kw in
  let t1 := add32 (add32 (add32 (add32 (rh s) (bsig1 (re s)))
                                (Ch (re s) (rf s) (rg s))) k) w in
  let t2 := add32 (bsig0 (ra s)) (Maj (ra s) (rb s) (rc s)) in
  Regs (add32 t1 t2) (ra s) (rb s) (rc s) (add32 (rd s) t1) (re s) (rf s) (rg s).

Definition regs_of (h : list Z) : regs :=
  let g i := nth i h 0 in
  Regs (g 0%nat) (g 1%nat) (g 2%nat) (g 3%nat) (g 4%nat) (g 5%nat) (g 6%nat) (g 7%nat).

Definition list_of (s : regs) : list Z :=
  [ra s; rb s; rc s; rd s; re s; rf s; rg s; rh s].

Definition compress (h : list Z) (block : list Z) : list Z :=
  let w := schedule 48 (words block 16) in
  let s := fold_left round (combine K w) (regs_of h) in
  map (fun p => add32 (fst p) (snd p)) (combine h (list_of s)).

Fixpoint blocks (n : nat) (bs : list Z) (h : list Z) : list Z :=
  match n with
  | O => h
  | S n' => blocks n' (skipn 64 bs) (compress h (firstn 64 bs))
  end.

(** The digest, as eight 32-bit words. *)
Definition sha256 (msg : list Z) : list Z :=
  let p := pad msg in blocks (length p / 64) p H0.

Definition hex_digit (d : Z) : ascii :=
  ascii_of_N (Z.to_N (if d <? 10 then 48 + d else 87 + d)).

Definition hex_word (w : Z) : string :=
  string_of_list_ascii
    (map (fun i => hex_digit (Z.shiftr w (4 * (7 - Z.of_nat i)) mod 16)) (seq 0 8)).

(** [s.encode()]: UTF-8, one byte below 128 and two from there to 255. *)
Definition utf8_encode (s : string) : list Z :=
  flat_map (fun c => if c <? 128 then [c] else [192 + c / 64; 128 + c mod 64])
           (Float.codes_of_string s).

(** [hashlib.sha256(s.encode()).hexdigest()] *)
Definition hexdigest (s : string) : string :=
  fold_right (fun w acc => hex_word w +:+ acc) EmptyString
             (sha256 (utf8_encode s)).

End SHA256.

(** * HMAC-SHA256 (RFC 2104), as [hmac.new(key, msg, hashlib.sha256)] *)

Module HMAC.

(** The 32 bytes of a digest, big-endian word by word. *)
Definition word_bytes (w : Z) : list Z :=
  map (fun i => Z.shiftr w (8 * (3 - Z.of_nat i)) mod 256) (seq 0 4).

Definition digest (msg : list Z) : list Z :=
  flat_map word_bytes (SHA256.sha256 msg).

Definition block_size : nat := 64.

(** A key longer than a block is replaced by its digest; the key is then
    padded with zeros to a block. *)
Definition block_key (key : list Z) : list Z :=
  let k := if (block_size <? length key)%nat then digest key else key in
  k ++ repeat 0 (block_size - length k).

Definition hmac (key msg : list Z) : list Z :=
  let k := block_key key in
  let ipad := map (Z.lxor 54) k in
  let opad := map (Z.lxor 92) k in
  SHA256.sha256 (opad ++ digest (ipad ++ msg)).

Definition hexdigest (key msg : list Z) : string :=
  fold_right (fun w acc => SHA256.hex_word w +:+ acc) EmptyString (hmac key msg).

End HMAC.

(** * Python values *)

Set Warnings "-register-all".

Inductive pyval : Type :=
| PNone
| PBool (b : bool)
| PInt (z : Z)
| PFloat (f : float)
| PStr (s : string)
| PList (l : list pyval)
| PDict (d : list (string * pyval)).

(** A [dict] with [str] keys, in insertion order. *)
Abbreviation pydict := (list (string * pyval)).

Fixpoint dict_get {A : Type} (k : string) (d : list (string * A)) : option A :=
  match d with
  | [] => None
  | (k', v) :: r => if String.eqb k k' then Some v else dict_get k r
  end.

(** [bool(v)] *)
Definition truthy (v : pyval) : bool :=
  match v with
  | PNone => false
  | PBool b => b
  | PInt z => negb (z =? 0)
  | PFloat f => negb (Float.is_zero f)
  | PStr s => negb (String.eqb s "")
  | PList l => match l with [] => false | _ => true end
  | PDict d => match d with [] => false | _ => true end
  end.

(** [x or y] *)
Definition py_or (x y : pyval) : pyval := if truthy x then x else y.

(** [float(v)] *)
Definition py_float (v : pyval) : result float :=
  match v with
  | PFloat f => Ok f
  | PInt z => Float.of_int z
  | PBool b => Ok (if b then Float.one else Float.zero)
  | PStr s => match Float.of_string s with
              | Some f => Ok f
              | None => Raise ValueError
              end
  | PNone | PList _ | PDict _ => Raise TypeError
  end.

(** [v[k]] for a [str] subscript [k]. *)
Definition py_getitem (v : pyval) (k : string) : result pyval :=
  match v with
  | PDict d => match dict_get k d with
               | Some x => Ok x
               | None => Raise KeyError
               end
  | _ => Raise TypeError
  end.

(** [v.get(k, dflt)] *)
Definition py_get (v : pyval) (k : string) (dflt : pyval) : result pyval :=
  match v with
  | PDict d => Ok (match dict_get k d with Some x => x | None => dflt end)
  | _ => Raise AttributeError
  end.

Fixpoint is_prefix (p s : string) : bool :=
  match p, s with
  | EmptyString, _ => true
  | String a p', String b s' => Ascii.eqb a b && is_prefix p' s'
  | String _ _, EmptyString => false
  end.

Fixpoint is_substring (p s : string) : bool :=
  is_prefix p s ||
  match s with
  | EmptyString => false
  | String _ s' => is_substring p s'
  end.

(** [k in v] for a [str] [k]: a key of a dict, an element of a list, a
    substring of a string. *)
Definition py_contains (k : string) (v : pyval) : result bool :=
  match v with
  | PDict d => Ok (match dict_get k d with Some _ => true | None => false end)
  | PList l => Ok (existsb (fun x => match x with
                                     | PStr s => String.eqb s k
                                     | _ => false
                                     end) l)
  | PStr s => Ok (is_substring k s)
  | PNone | PBool _ | PInt _ | PFloat _ => Raise TypeError
  end.

(** [for b in v]: the elements the loop visits. *)
Definition py_iter (v : pyval) : result (list pyval) :=
  match v with
  | PList l => Ok l
  | PDict d => Ok (map (fun kv => PStr (fst kv)) d)
  | PStr s => Ok (map (fun c => PStr (String c EmptyString)) (list_ascii_of_string s))
  | PNone | PBool _ | PInt _ | PFloat _ => Raise TypeError
  end.

(** [v / y] for a float [y]. *)
Definition py_truediv_float (v : pyval) (y : float) : result float :=
  match v with
  | PFloat f => Float.truediv f y
  | PInt z => let* f := Float.of_int z in Float.truediv f y
  | PBool b => Float.truediv (if b then Float.one else Float.zero) y
  | PNone | PStr _ | PList _ | PDict _ => Raise TypeError
  end.

(** Equality of an [int] and a [float], exact as in the interpreter. *)
Definition float_eq_int (f : float) (z : Z) : bool :=
  match f with
  | S754_zero _ => z =? 0
  | S754_finite s m e =>
      let sm := if s then Z.neg m else Z.pos m in
      if 0 <=? e then z =? sm * 2 ^ e else z * 2 ^ (- e) =? sm
  | S754_infinity _ | S754_nan => false
  end.

(** Equality of two hashable values as dictionary keys. *)
Definition key_eqb (a b : pyval) : bool :=
  let num v := match v with
               | PBool x => Some (inl (if x then 1 else 0))
               | PInt z => Some (inl z)
               | PFloat f => Some (inr f)
               | _ => None
               end in
  match a, b with
  | PStr s, PStr t => String.eqb s t
  | PNone, PNone => true
  | _, _ =>
      match num a, num b with
      | Some (inl x), Some (inl y) => x =? y
      | Some (inl x), Some (inr f) | Some (inr f), Some (inl x) => float_eq_int f x
      | Some (inr f), Some (inr g) => Float.eqb f g
      | _, _ => false
      end
  end.

Definition hashable (v : pyval) : bool :=
  match v with
  | PList _ | PDict _ => false
  | _ => true
  end.

(** [d[k] = v] on a dict with arbitrary hashable keys: an equal key keeps
    its place (and its key object), a new key goes last. *)
Fixpoint key_set {A : Type} (k : pyval) (v : A) (d : list (pyval * A)) : list (pyval * A) :=
  match d with
  | [] => [(k, v)]
  | (k', v') :: r => if key_eqb k' k then (k', v) :: r else (k', v') :: key_set k v r
  end.

(** * [json.dumps] *)

Module Json.

Definition dq : string := String (ascii_of_nat 34) EmptyString.

Definition hex4 (n : Z) : string :=
  string_of_list_ascii
    (map (fun i => SHA256.hex_digit (Z.shiftr n (4 * (3 - Z.of_nat i)) mod 16)) (seq 0 4)).

(** [ensure_ascii=True]: quote and backslash are escaped, the five short
    escapes are used, every other character outside [' '..'~'] is written
    as a [\u] escape. *)
Definition escape_char (c : ascii) : string :=
  let n := Float.code c in
  if n =? 34 then "\" +:+ dq
  else if n =? 92 then "\\"
  else if n =? 10 then "\n"
  else if n =? 13 then "\r"
  else if n =? 9 then "\t"
  else if n =? 8 then "\b"
  else if n =? 12 then "\f"
  else if (32 <=? n) && (n <=? 126) then String c EmptyString
  else "\u" +:+ hex4 n.

Fixpoint escape (s : string) : string :=
  match s with
  | EmptyString => EmptyString
  | String c r => escape_char c +:+ escape r
  end.

Definition quote (s : string) : string := dq +:+ escape s +:+ dq.

(** [floatstr] with [allow_nan=True]. *)
Definition floatstr (f : float) : string :=
  match f with
  | S754_nan => "NaN"
  | S754_infinity false => "Infinity"
  | S754_infinity true => "-Infinity"
  | _ => Float.repr f
  end.

Fixpoint join (sep : string) (l : list string) : string :=
  match l with
  | [] => EmptyString
  | [x] => x
  | x :: r => x +:+ sep +:+ join sep r
  end.

(** Stable insertion sort of the items by key (code point order). *)
Fixpoint insert_item (x : string * string) (l : list (string * string))
    : list (string * string) :=
  match l with
  | [] => [x]
  | y :: r => if String.ltb (fst x) (fst y) then x :: y :: r
              else y :: insert_item x r
  end.

Definition sort_items (l : list (string * string)) : list (string * string) :=
  fold_left (fun acc x => insert_item x acc) l [].

Fixpoint encode (sort_keys : bool) (v : pyval) : string :=
  match v with
  | PNone => "null"
  | PBool b => if b then "true" else "false"
  | PInt z => Float.Z_to_string z
  | PFloat f => floatstr f
  | PStr s => quote s
  | PList l => "[" +:+ join ", " (map (encode sort_keys) l) +:+ "]"
  | PDict d =>
      let items := map (fun kv => (fst kv, encode sort_keys (snd kv))) d in
      let items := if sort_keys then sort_items items else items in
      "{" +:+ join ", " (map (fun kv => quote (fst kv) +:+ ": " +:+ snd kv) items) +:+ "}"
  end.

Fixpoint has_nonfinite (v : pyval) : bool :=
  match v with
  | PFloat f => negb (Float.is_finite f)
  | PList l => existsb has_nonfinite l
  | PDict d => existsb (fun kv => has_nonfinite (snd kv)) d
  | _ => false
  end.

(** [json.dumps(v, sort_keys=..., allow_nan=...)]: with [allow_nan=False] a
    NaN or an infinity raises [ValueError]; with the default [True] nothing
    raises on a [pyval]. *)
Definition dumps (v : pyval) (sort_keys : bool) (allow_nan : bool) : result string :=
  if negb allow_nan && has_nonfinite v then Raise ValueError
  else Ok (encode sort_keys v).

End Json.

(** * The program *)

(** ** The internal chain (lines 55-69) *)

(** A block: the dict literal of [create_block], with its four keys. *)
Record block : Type := Block {
  timestamp : float;
  operation : pydict;
  hash : string;
  prev_hash : string
}.

(** The block as the dict the program builds, keys in the order of the
    literal; this is what [/blockchain] and [/ordem] serialize. *)
Definition block_dict (b : block) : pydict :=
  [ ("timestamp", PFloat (timestamp b));
    ("operation", PDict (operation b));
    ("hash", PStr (hash b));
    ("prev_hash", PStr (prev_hash b)) ].

(** [s * n] on strings. *)
Fixpoint str_mul (s : string) (n : nat) : string :=
  match n with
  | O => EmptyString
  | S n' => s +:+ str_mul s n'
  end.

(** [create_block(operation)], with [blockchain] passed explicitly and the
    clock reading [now] of [time.time()]. *)
Definition create_block (now : float) (operation : pydict) (blockchain : list block)
    : result (block * list block) :=
  let prev_hash := match last blockchain with
                   | Some b => hash b
                   | None => str_mul "0" 64
                   end in
  let* block_data := Json.dumps (PDict operation) true true in
  let block_hash := SHA256.hexdigest (prev_hash +:+ block_data) in
  let block := {| timestamp := now;
                  operation := operation;
                  hash := block_hash;
                  prev_hash := prev_hash |} in
  Ok (block, blockchain ++ [block]).

(** [create_block] in the two steps another thread can come between: lines
    59-67 read the last hash and build the block, line 68 appends it. *)
Definition build_block (now : float) (operation : pydict) (blockchain : list block)
    : result block :=
  let prev_hash := match last blockchain with
                   | Some b => hash b
                   | None => str_mul "0" 64
                   end in
  let* block_data := Json.dumps (PDict operation) true true in
  let block_hash := SHA256.hexdigest (prev_hash +:+ block_data) in
  Ok {| timestamp := now;
        operation := operation;
        hash := block_hash;
        prev_hash := prev_hash |}.

Definition append_block (b : block) (blockchain : list block) : list block :=
  blockchain ++ [b].

(** Two calls of [create_block] in two threads, the second one reading the
    last hash before the first one has appended its block: both build on the
    same list, then both append. The program takes no lock. *)
Definition overlapping_calls (now1 : float) (op1 : pydict) (now2 : float) (op2 : pydict)
    (blockchain : list block) : result (list block) :=
  let* b1 := build_block now1 op1 blockchain in
  let* b2 := build_block now2 op2 blockchain in
  Ok (append_block b2 (append_block b1 blockchain)).

(** ** Signing a request (lines 72-73) *)

(** [sign(query_string, secret)] (lines 72-73) *)
Definition sign (query_string secret : string) : string :=
  HMAC.hexdigest (SHA256.utf8_encode secret) (SHA256.utf8_encode query_string).

(** ** Exchange balances (lines 87-95) *)

(** [free + locked] of one entry (lines 90-92). *)
Definition entry_total (b : pyval) : result float :=
  let* free_v := py_get b "free" (PInt 0) in
  let* free := py_float (py_or free_v (PInt 0)) in
  let* locked_v := py_get b "locked" (PInt 0) in
  let* locked := py_float (py_or locked_v (PInt 0)) in
  Ok (Float.add free locked).

(** [get_nonzero_balances(account_json)]; [out] keeps insertion order. *)
Fixpoint nonzero_loop (bs : list pyval) (out : list (pyval * float))
    : result (list (pyval * float)) :=
  match bs with
  | [] => Ok out
  | b :: rest =>
      let* total := entry_total b in
      if Float.ltb Float.zero total then
        let* asset := py_getitem b "asset" in
        if hashable asset then nonzero_loop rest (key_set asset total out)
        else Raise TypeError
      else nonzero_loop rest out
  end.

Definition get_nonzero_balances (account_json : pyval) : result (list (pyval * float)) :=
  let* balances := py_get account_json "balances" (PList []) in
  let* bs := py_iter balances in
  nonzero_loop bs [].

(** ** Prices (lines 97-107) *)

(** [get_brl_price(asset)]; [fetch pair] is the answer of the ticker request
    for [pair], already checked and decoded ([r.json()]), or what it raised.
    Every failure inside the [try] gives [0.0]. *)
Definition get_brl_price (fetch : string -> result pyval) (asset : string) : float :=
  if String.eqb asset "BRL" then Float.one
  else
    let pair := asset +:+ "BRL" in
    match (let* j := fetch pair in
           let* p := py_get j "price" (PInt 0) in
           py_float p) with
    | Ok price => price
    | Raise _ => Float.zero
    end.

(** ** On-chain balances (lines 128-134) *)

Definition SATS_PER_BTC : float :=
  Eval vm_compute in
    match Float.of_string "1e8" with Some f => f | None => Float.nan end.

(** [get_btc_onchain_balance(address)]; [fetch address] is the decoded
    answer of the explorer, or what the request raised. *)
Definition get_btc_onchain_balance (fetch : string -> result pyval) (address : string)
    : result float :=
  let* data := fetch address in
  let* d1 := py_getitem data "data" in
  let* d2 := py_getitem d1 address in
  let* d3 := py_getitem d2 "address" in
  let* balance_sats := py_getitem d3 "balance" in
  py_truediv_float balance_sats SATS_PER_BTC.

(** ** The configured addresses (lines 143-144) *)

(** [c.isspace()] for a code point below 256. *)
Definition py_isspace (c : ascii) : bool :=
  let n := Float.code c in
  ((9 <=? n) && (n <=? 13)) || ((28 <=? n) && (n <=? 32)) || (n =? 133) || (n =? 160).

Fixpoint lstrip (s : string) : string :=
  match s with
  | EmptyString => EmptyString
  | String c r => if py_isspace c then lstrip r else s
  end.

Fixpoint rstrip (s : string) : string :=
  match s with
  | EmptyString => EmptyString
  | String c r =>
      match rstrip r with
      | EmptyString => if py_isspace c then EmptyString else String c EmptyString
      | r' => String c r'
      end
  end.

(** [s.strip()] *)
Definition str_strip (s : string) : string := rstrip (lstrip s).

(** [s.split(sep)] for a separator of one character. *)
Fixpoint str_split (sep : ascii) (s : string) : list string :=
  match s with
  | EmptyString => [EmptyString]
  | String c r =>
      if Ascii.eqb c sep then EmptyString :: str_split sep r
      else match str_split sep r with
           | w :: ws => String c w :: ws
           | [] => [String c EmptyString]
           end
  end.

Definition comma : ascii := ascii_of_nat 44.

(** [[a.strip() for a in BTC_ADDRESSES.split(",") if a.strip()]] *)
Definition parse_btc_addresses (BTC_ADDRESSES : string) : list string :=
  map str_strip
      (List.filter (fun a => negb (String.eqb (str_strip a) ""))
                   (str_split comma BTC_ADDRESSES)).

(** ** State, log and environment *)

Inductive log_record : Type :=
| LogStart                                                      (* info, line 149 *)
| LogSpot (asset : string) (amount value_brl diff : float)       (* info, line 167 *)
| LogOnchainError (addr : string) (e : exn)                     (* error, line 181 *)
| LogOnchain (addr : string) (bal delta : float)                (* info, line 188 *)
| LogBuy (b : block)                                            (* info, line 205 *)
| LogBuyError (e : exn)                                         (* error, line 208 *)
| LogSell (b : block)                                           (* info, line 217 *)
| LogSellError (e : exn)                                        (* error, line 220 *)
| LogGeneralError (e : exn).                                    (* error, line 224 *)

Definition is_error_record (r : log_record) : bool :=
  match r with
  | LogOnchainError _ _ | LogBuyError _ | LogSellError _ | LogGeneralError _ => true
  | LogStart | LogSpot _ _ _ _ | LogOnchain _ _ _ | LogBuy _ | LogSell _ => false
  end.

(** The module-level variables the threads share, and the log file. *)
Record state : Type := State {
  blockchain : list block;
  prev_balances : gmap string float;
  prev_onchain_btc : gmap string float;
  btc_addresses : list string;
  log : list log_record
}.

(** The state at start: empty chain and maps; the addresses come from the
    configuration. *)
Definition init_state (addresses : list string) : state :=
  {| blockchain := [];
     prev_balances := ∅;
     prev_onchain_btc := ∅;
     btc_addresses := addresses;
     log := [] |}.

Definition with_blockchain (c : list block) (st : state) : state :=
  {| blockchain := c;
     prev_balances := prev_balances st;
     prev_onchain_btc := prev_onchain_btc st;
     btc_addresses := btc_addresses st;
     log := log st |}.

Definition set_balance (asset : string) (amount : float) (st : state) : state :=
  {| blockchain := blockchain st;
     prev_balances := <[asset := amount]> (prev_balances st);
     prev_onchain_btc := prev_onchain_btc st;
     btc_addresses := btc_addresses st;
     log := log st |}.

Definition set_onchain (addr : string) (bal : float) (st : state) : state :=
  {| blockchain := blockchain st;
     prev_balances := prev_balances st;
     prev_onchain_btc := <[addr := bal]> (prev_onchain_btc st);
     btc_addresses := btc_addresses st;
     log := log st |}.

Definition logging (r : log_record) (st : state) : state :=
  {| blockchain := blockchain st;
     prev_balances := prev_balances st;
     prev_onchain_btc := prev_onchain_btc st;
     btc_addresses := btc_addresses st;
     log := log st ++ [r] |}.

(** [prev_balances.get(asset, 0)] *)
Definition balance_of (balances : gmap string float) (asset : string) : float :=
  default Float.zero (balances !! asset).

(** What the outside world answers during one cycle or one request. *)
Record env : Type := Env {
  spot_account : result pyval;                 (* get_spot_account() *)
  ticker : string -> result pyval;             (* ticker request, by pair, in the spot loop *)
  explorer : nat -> string -> result pyval;    (* explorer request for the i-th listed address *)
  btc_ticker : result pyval;                   (* the ticker request for BTCBRL that follows *)
  place_order : string -> string -> float -> result pyval;  (* place_order(symbol, side, quantity) *)
  now : float                                  (* time.time() *)
}.

(** ** One pass of [monitor_loop] (lines 152-224) *)

(** The spot loop (lines 157-167) over [nonzero.items()]. A key that is not
    a [str] makes [get_brl_price] raise at [asset + "BRL"], before the
    balance is stored. *)
Fixpoint spot_loop (e : env) (items : list (pyval * float)) (st : state)
    : state * result unit :=
  match items with
  | [] => (st, Ok tt)
  | (PStr asset, amount) :: rest =>
      let prev := default Float.zero (prev_balances st !! asset) in
      let diff := Float.sub amount prev in
      let price_brl := get_brl_price (ticker e) asset in
      let value_brl := Float.mul amount price_brl in
      spot_loop e rest
        (logging (LogSpot asset amount value_brl diff) (set_balance asset amount st))
  | (_, _) :: _ => (st, Raise TypeError)
  end.

(** The on-chain loop (lines 176-188): a failing address is logged and
    skipped. Every element of the list gets a request of its own, also an
    address listed twice; [i] is the position of the first element of
    [addrs] in [btc_addresses]. *)
Fixpoint onchain_loop (e : env) (i : nat) (addrs : list string) (st : state) : state :=
  match addrs with
  | [] => st
  | addr :: rest =>
      match get_btc_onchain_balance (explorer e i) addr with
      | Raise ex => onchain_loop e (S i) rest (logging (LogOnchainError addr ex) st)
      | Ok bal =>
          let prev := default Float.zero (prev_onchain_btc st !! addr) in
          let delta := Float.sub bal prev in
          onchain_loop e (S i) rest
            (logging (LogOnchain addr bal delta) (set_onchain addr bal st))
      end
  end.

Inductive side : Type := BUY | SELL.

Definition side_str (s : side) : string :=
  match s with BUY => "BUY" | SELL => "SELL" end.

(** The thresholds written in the source. *)
Definition BUY_BELOW : float := Eval vm_compute in Float.of_Z 100000.
Definition SELL_ABOVE : float := Eval vm_compute in Float.of_Z 120000.
Definition MIN_BRL : float := Eval vm_compute in Float.of_Z 10.
Definition MIN_BTC : float :=
  Eval vm_compute in
    match Float.of_string "0.0001" with Some f => f | None => Float.nan end.

(** The dict literal passed to [create_block]. *)
Definition trade_operation (sd : string) (quantity price : float) : pydict :=
  [ ("side", PStr sd); ("asset", PStr "BTC");
    ("quantity", PFloat quantity); ("price", PFloat price) ].

(** The [try] of lines 201-208 and 213-220: submit, then record. *)
Definition submit_and_record (e : env) (sd : side) (quantity btc_price : float) (st : state)
    : state :=
  match (let* order := place_order e "BTCBRL" (side_str sd) quantity in
         create_block (now e) (trade_operation (side_str sd) quantity btc_price)
                      (blockchain st)) with
  | Ok (b, chain) =>
      logging (match sd with BUY => LogBuy b | SELL => LogSell b end)
              (with_blockchain chain st)
  | Raise ex =>
      logging (match sd with BUY => LogBuyError ex | SELL => LogSellError ex end) st
  end.

(** The buy/sell step (lines 194-220). *)
Definition trade_step (e : env) (st : state) : state * result unit :=
  let btc_price := get_brl_price (fun _ => btc_ticker e) "BTC" in
  if Float.ltb Float.zero btc_price then
    if Float.ltb btc_price BUY_BELOW then
      let brl_balance := balance_of (prev_balances st) "BRL" in
      if Float.ltb MIN_BRL brl_balance then
        match Float.truediv brl_balance btc_price with
        | Ok qty_to_buy => (submit_and_record e BUY qty_to_buy btc_price st, Ok tt)
        | Raise ex => (st, Raise ex)
        end
      else (st, Ok tt)
    else if Float.ltb SELL_ABOVE btc_price then
      let btc_balance := balance_of (prev_balances st) "BTC" in
      if Float.ltb MIN_BTC btc_balance then
        (submit_and_record e SELL btc_balance btc_price st, Ok tt)
      else (st, Ok tt)
    else (st, Ok tt)
  else (st, Ok tt).

(** The rule alone: which order, if any, the step submits for a price and
    the stored balances. *)
Definition decide_order (btc_price : float) (balances : gmap string float)
    : result (option (side * float)) :=
  if Float.ltb Float.zero btc_price then
    if Float.ltb btc_price BUY_BELOW then
      let brl_balance := balance_of balances "BRL" in
      if Float.ltb MIN_BRL brl_balance then
        let* qty_to_buy := Float.truediv brl_balance btc_price in
        Ok (Some (BUY, qty_to_buy))
      else Ok None
    else if Float.ltb SELL_ABOVE btc_price then
      let btc_balance := balance_of balances "BTC" in
      if Float.ltb MIN_BTC btc_balance then Ok (Some (SELL, btc_balance))
      else Ok None
    else Ok None
  else Ok None.

(** The body of the outer [try]. *)
Definition cycle_body (e : env) (st : state) : state * result unit :=
  match (let* acct := spot_account e in get_nonzero_balances acct) with
  | Raise ex => (st, Raise ex)
  | Ok nonzero =>
      match spot_loop e nonzero st with
      | (st1, Raise ex) => (st1, Raise ex)
      | (st1, Ok _) => trade_step e (onchain_loop e 0 (btc_addresses st1) st1)
      end
  end.

(** One pass: whatever the body raises is logged (line 224). *)
Definition monitor_cycle (e : env) (st : state) : state :=
  match cycle_body e st with
  | (st', Ok _) => st'
  | (st', Raise ex) => logging (LogGeneralError ex) st'
  end.

(** [monitor_loop] never returns; this is the record it writes when it
    starts and its first passes, one per environment. *)
Definition monitor_loop (es : list env) (st : state) : state :=
  fold_left (fun s e => monitor_cycle e s) es (logging LogStart st).

(** ** The handlers (lines 231-252) *)

Inductive erro : Type :=
| ErroMissing              (* the fixed text of line 243 *)
| ErroExn (e : exn).       (* str(e), line 252 *)

Inductive body : Type :=
| SaldoBody (spot onchain : gmap string float)
| ChainBody (chain : list block)
| OrderBody (order : pyval) (b : block)
| ErroBody (msg : erro).

(** What a handler hands back to Flask: a JSON response with its status, or
    an exception that escapes the handler. *)
Inductive http : Type :=
| Response (status : Z) (b : body)
| Unhandled (e : exn).

Definition api_saldo (st : state) : http :=
  Response 200 (SaldoBody (prev_balances st) (prev_onchain_btc st)).

Definition api_blockchain (st : state) : http :=
  Response 200 (ChainBody (blockchain st)).

(** The [try] of [api_ordem] (lines 246-252). *)
Definition ordem_try (e : env) (sd : string) (qty : float) (st : state) : http * state :=
  let price := get_brl_price (fun _ => btc_ticker e) "BTC" in
  match (let* order := place_order e "BTCBRL" sd qty in
         let* bc := create_block (now e) (trade_operation sd qty price) (blockchain st) in
         Ok (order, bc)) with
  | Ok (order, (b, chain)) => (Response 200 (OrderBody order b), with_blockchain chain st)
  | Raise ex => (Response 500 (ErroBody (ErroExn ex)), st)
  end.

Section Handlers.

(** [str.upper], the interpreter's: the development does not depend on what
    it does to a string. *)
Variable str_upper : string -> string.

(** [v.upper()] *)
Definition py_upper (v : pyval) : result string :=
  match v with
  | PStr s => Ok (str_upper s)
  | _ => Raise AttributeError
  end.

(** [not data or "side" not in data or "quantity" not in data] *)
Definition fields_missing (data : pyval) : result bool :=
  if negb (truthy data) then Ok true
  else
    let* has_side := py_contains "side" data in
    if negb has_side then Ok true
    else
      let* has_quantity := py_contains "quantity" data in
      Ok (negb has_quantity).

(** [api_ordem], [data] being [request.json]. *)
Definition api_ordem (e : env) (data : pyval) (st : state) : http * state :=
  match fields_missing data with
  | Raise ex => (Unhandled ex, st)
  | Ok true => (Response 400 (ErroBody ErroMissing), st)
  | Ok false =>
      match (let* s := py_getitem data "side" in
             let* sd := py_upper s in
             let* q := py_getitem data "quantity" in
             let* qty := py_float q in
             Ok (sd, qty)) with
      | Raise ex => (Unhandled ex, st)
      | Ok (sd, qty) => ordem_try e sd qty st
      end
  end.

(** ** The running system: passes of the loop and requests, one at a time *)

Inductive event : Type :=
| Cycle (e : env)
| GetSaldo
| GetBlockchain
| PostOrdem (e : env) (data : pyval).

Definition step (st : state) (ev : event) : state :=
  match ev with
  | Cycle e => monitor_cycle e st
  | GetSaldo | GetBlockchain => st
  | PostOrdem e data => snd (api_ordem e data st)
  end.

Definition run (addresses : list string) (evs : list event) : state :=
  fold_left step evs (init_state addresses).

End Handlers.

(** [str.upper] on strings of ASCII characters. *)
Definition ascii_upper (s : string) : string :=
  string_of_list_ascii
    (map (fun c => let n := Float.code c in
                   if (97 <=? n) && (n <=? 122) then ascii_of_N (Z.to_N (n - 32)) else c)
         (list_ascii_of_string s)).

(** ** Appending a sequence of operations to the empty chain

    An operation is a [dict] with [str] keys whose values are JSON values,
    as the three callers of [create_block] build it. *)

Definition append_op (chain : result (list block)) (top : float * pydict)
    : result (list block) :=
  let* c := chain in
  let* bc := create_block (fst top) (snd top) c in
  Ok (snd bc).

Definition append_all (ops : list (float * pydict)) : result (list block) :=
  fold_left append_op ops (Ok []).

(** Modelled from the spec: [verify()] of section 4.1, which the source does
    not have. It recomputes every block's hash from its [prev_hash] and
    [operation] and compares it with the stored one, checks that the first
    [prev_hash] is the genesis constant and every later one is the hash of
    the block before, and stops at the first mismatch. *)
Fixpoint verify_from (expected_prev : string) (chain : list block) : bool :=
  match chain with
  | [] => true
  | b :: rest =>
      String.eqb (prev_hash b) expected_prev &&
      String.eqb (hash b)
                 (SHA256.hexdigest
                    (prev_hash b +:+ Json.encode true (PDict (operation b)))) &&
      verify_from (hash b) rest
  end.

(** The genesis constant, ["0"*64] in [create_block]. *)
Definition GENESIS : string := str_mul "0" 64.

(** Modelled from the spec: [verify()] on the whole chain, the first block
    being checked against the genesis constant. *)
Definition verify (chain : list block) : bool := verify_from GENESIS chain.

(** * Definitions and tactics of the proofs *)

(** The hash the next block links to. *)
Definition tip (chain : list block) : string :=
  match last chain with
  | Some b => hash b
  | None => GENESIS
  end.

(** The block [create_block] builds on top of [chain]. *)
Definition next_block (now : float) (op : pydict) (chain : list block) : block :=
  {| timestamp := now;
     operation := op;
     hash := SHA256.hexdigest (tip chain +:+ Json.encode true (PDict op));
     prev_hash := tip chain |}.

(** [new] is [old], or [old] and one block built on it. *)
Definition grows_by_at_most_one (old new : list block) : Prop :=
  new = old \/ exists now op, new = old ++ [next_block now op old].

(** Stored hash recomputed from the block's own fields. *)
Definition hash_ok (b : block) : Prop :=
  hash b = SHA256.hexdigest (prev_hash b +:+ Json.encode true (PDict (operation b))).

(** Block [i] links to block [i - 1], the first one to the genesis constant. *)
Definition linked (chain : list block) (i : nat) (b : block) : Prop :=
  match i with
  | O => prev_hash b = GENESIS
  | S j => exists p, chain !! j = Some p /\ prev_hash b = hash p
  end.

(** What holds of a chain built by appends alone. *)
Record appended (ops : list (float * pydict)) (chain : list block) : Prop := {
  app_length : length chain = length ops;
  app_verify : verify chain = true;
  app_blocks : forall i b, chain !! i = Some b ->
      hash_ok b /\ linked chain i b /\
      exists top, ops !! i = Some top /\ timestamp b = fst top /\ operation b = snd top
}.

(** [asset] is a key of [out]. *)
Definition has_key (asset : string) (out : list (pyval * float)) : bool :=
  existsb (fun kv => match fst kv with
                     | PStr a => String.eqb a asset
                     | _ => false
                     end) out.

(** The entry [b] of the fetched account names [asset] and has a total above
    zero. *)
Definition positive_entry (asset : string) (b : pyval) : bool :=
  match entry_total b, py_getitem b "asset" with
  | Ok t, Ok (PStr a) => Float.ltb Float.zero t && String.eqb a asset
  | _, _ => false
  end.

(** Some entry of the fetched account gives [asset] a total above zero. *)
Definition fetched_positive (account_json : pyval) (asset : string) : bool :=
  match (let* balances := py_get account_json "balances" (PList []) in
         py_iter balances) with
  | Ok bs => existsb (positive_entry asset) bs
  | Raise _ => false
  end.

Definition all_positive (out : list (pyval * float)) : Prop :=
  Forall (fun kv => Float.ltb Float.zero (snd kv) = true) out.

Definition balances_positive (m : gmap string float) : Prop :=
  map_Forall (fun _ v => Float.ltb Float.zero v = true) m.

(** The three ways through [api_ordem]: refused or failed before the [try]
    (the state is as before), or the [try] itself. *)
Ltac ordem_cases data :=
  unfold api_ordem;
  destruct (fields_missing data) as [[|]|?];
  [ | destruct (let* s := py_getitem data "side" in _) as [[? ?]|?] | ].

(** One of [0-9a-f]. *)
Definition hex_char (c : ascii) : bool :=
  let n := Float.code c in
  ((48 <=? n) && (n <=? 57)) || ((97 <=? n) && (n <=? 102)).

(** 64 characters, each one of [0-9a-f]: a 256-bit digest in lower-case hex. *)
Definition is_hex_digest (s : string) : bool :=
  (String.length s =? 64)%nat && forallb hex_char (list_ascii_of_string s).

(** [new] is [old], or [old] and one block for a trade built on it. *)
Definition grows_by_trade (old new : list block) : Prop :=
  new = old \/
  exists now sd q p, new = old ++ [next_block now (trade_operation sd q p) old].

(** What every block of a chain of the running system satisfies. *)
Record sound_block (chain : list block) (i : nat) (b : block) : Prop := {
  sb_hash : hash_ok b;
  sb_link : linked chain i b;
  sb_hash_hex : is_hex_digest (hash b) = true;
  sb_prev_hex : is_hex_digest (prev_hash b) = true;
  sb_trade : exists sd q p, operation b = trade_operation sd q p
}.

(** Every block of the chain is sound at its position. *)
Definition sound_chain (chain : list block) : Prop :=
  forall i b, chain !! i = Some b -> sound_block chain i b.

(** Items ordered by key. *)
Definition key_le (x y : string * string) : Prop := String.le (fst x) (fst y).

(** [s] has a comma. *)
Definition has_comma (s : string) : bool :=
  existsb (Ascii.eqb comma) (list_ascii_of_string s).

(** Not empty, no comma, no white space at either end. *)
Definition clean_address (a : string) : bool :=
  negb (String.eqb a "") && negb (has_comma a) && String.eqb (str_strip a) a.

(** [s] starts with white space. *)
Definition head_space (s : string) : bool :=
  match s with
  | EmptyString => false
  | String c _ => py_isspace c
  end.

(** The asset an entry names, when it is a [str]. *)
Definition asset_of (b : pyval) : option string :=
  match py_getitem b "asset" with
  | Ok (PStr a) => Some a
  | _ => None
  end.

(** An entry whose amounts can be read and whose asset is a [str]. *)
Definition readable_entry (b : pyval) : bool :=
  match entry_total b, asset_of b with
  | Ok _, Some _ => true
  | _, _ => false
  end.

(** The entries with a total above zero, in the order of the answer. *)
Definition positive_entries (bs : list pyval) : list (string * float) :=
  omap (fun b => match entry_total b, asset_of b with
                 | Ok t, Some a => if Float.ltb Float.zero t then Some (a, t) else None
                 | _, _ => None
                 end) bs.

(** Items with [str] keys as items of a [dict] with arbitrary keys. *)
Definition str_items (l : list (string * float)) : list (pyval * float) :=
  map (fun kv => (PStr (fst kv), snd kv)) l.

(** The record the loop writes for the [i]-th listed address. *)
Definition onchain_record (e : env) (i : nat) (addr : string) (r : option log_record)
    : Prop :=
  match get_btc_onchain_balance (explorer e i) addr with
  | Ok bal => exists delta, r = Some (LogOnchain addr bal delta)
  | Raise ex => r = Some (LogOnchainError addr ex)
  end.

(** The addresses a state has balances for are among its configured ones. *)
Definition onchain_configured (st : state) : Prop :=
  map_Forall (fun addr _ => addr ∈ btc_addresses st) (prev_onchain_btc st).

(** The list under [balances] of an answer. *)
Definition balances_of (account_json : pyval) : list pyval :=
  match account_json with
  | PDict d => match dict_get "balances" d with
               | Some (PList bs) => bs
               | _ => []
               end
  | _ => []
  end.

(** A value of an operation as the callers of [create_block] write it: a
    string or a float. *)
Inductive field : Type :=
| FStr (s : string)
| FFloat (f : float).

Definition field_value (x : field) : pyval :=
  match x with
  | FStr s => PStr s
  | FFloat f => PFloat f
  end.

(** The operation with the given keys and values, in the given order. *)
Definition operation_of (fields : list (string * field)) : pydict :=
  map (fun kv => (fst kv, field_value (snd kv))) fields.

(** * Concrete answers of the outside world *)

(** A float written as in the source text. *)
Definition lit (s : string) : float :=
  match Float.of_string s with Some f => f | None => Float.nan end.

Definition ticker_answer (price : string) : pyval :=
  PDict [("symbol", PStr "BTCBRL"); ("price", PStr price)].

Definition account_answer (entries : list (string * (string * string))) : pyval :=
  PDict [ ("makerCommission", PInt 15);
          ("balances",
           PList (map (fun en => PDict [ ("asset", PStr (fst en));
                                         ("free", PStr (fst (snd en)));
                                         ("locked", PStr (snd (snd en))) ])
                      entries)) ].

Definition explorer_answer (addr : string) (sats : Z) : pyval :=
  PDict [("data", PDict [(addr, PDict [("address", PDict [("balance", PInt sats)])])])].

Definition order_answer : pyval :=
  PDict [("symbol", PStr "BTCBRL"); ("orderId", PInt 28); ("status", PStr "FILLED")].

Definition timeout : exn := External "Read timed out.".
Definition rejected : exn := External "400 Client Error: Bad Request".

(** Nothing answers. *)
Definition offline : env :=
  {| spot_account := Raise timeout;
     ticker := fun _ => Raise timeout;
     explorer := fun _ _ => Raise timeout;
     btc_ticker := Raise timeout;
     place_order := fun _ _ _ => Raise rejected;
     now := lit "1700000000.5" |}.

Definition with_account (a : pyval) (e : env) : env :=
  {| spot_account := Ok a; ticker := ticker e; explorer := explorer e;
     btc_ticker := btc_ticker e; place_order := place_order e; now := now e |}.

Definition with_btc_price (p : string) (e : env) : env :=
  {| spot_account := spot_account e; ticker := ticker e; explorer := explorer e;
     btc_ticker := Ok (ticker_answer p); place_order := place_order e; now := now e |}.

Definition with_explorer (f : string -> result pyval) (e : env) : env :=
  {| spot_account := spot_account e; ticker := ticker e; explorer := fun _ => f;
     btc_ticker := btc_ticker e; place_order := place_order e; now := now e |}.

Definition accepting (e : env) : env :=
  {| spot_account := spot_account e; ticker := ticker e; explorer := explorer e;
     btc_ticker := btc_ticker e; place_order := fun _ _ _ => Ok order_answer; now := now e |}.

Definition wallet : string := "bc1qxy2kgdygjrsqtzq2n0yrf2493p83kkfjhx0wlh".

Definition nan_operation : pydict :=
  trade_operation "BUY" Float.nan (lit "650000.0").

(** The body [{"side": "BUY", "quantity": "abc"}]. *)
Definition bad_quantity : pyval :=
  PDict [("side", PStr "BUY"); ("quantity", PStr "abc")].

(** A first pass stores 1.5 BTC for the address; in the next one the
    explorer reports -5 satoshi. *)
Definition pass_one : env :=
  with_explorer (fun a => Ok (explorer_answer a 150000000))
    (with_account (account_answer [("BRL", ("50.00000000", "0.00000000"))]) offline).

Definition pass_negative : env :=
  with_explorer (fun a => Ok (explorer_answer a (-5)))
    (with_account (account_answer [("BRL", ("-1.00000000", "0.00000000"))]) offline).

(** The account reports 50 BRL, then none; the price then falls below the
    buy threshold. *)
Definition pass_empty : env :=
  with_btc_price "99999.00"
    (with_account (account_answer [("BRL", ("0.00000000", "0.00000000"))])
                  (accepting offline)).

(** An account of three assets, one of them empty. *)
Definition three_assets : list (string * (string * string)) :=
  [ ("BRL", ("50.00000000", "0.00000000"));
    ("BTC", ("0.00000000", "0.00000000"));
    ("ETH", ("1.5", "0.5")) ].

(** An account whose second entry has an amount that is not a number. *)
Definition unreadable_account : pyval :=
  account_answer [ ("BRL", ("50.00000000", "0.00000000")); ("BTC", ("abc", "0.00000000")) ].

(** The body [{"side": "buy", "quantity": 0.001}]. *)
Definition buy_request : pyval :=
  PDict [("side", PStr "buy"); ("quantity", PFloat (lit "0.001"))].

(** The explorer answers the first request of a pass and no other. *)
Definition answers_once : env :=
  {| spot_account := Raise timeout;
     ticker := fun _ => Raise timeout;
     explorer := fun i a => match i with
                            | O => Ok (explorer_answer a 150000000)
                            | S _ => Raise timeout
                            end;
     btc_ticker := Raise timeout;
     place_order := fun _ _ _ => Raise rejected;
     now := lit "1700000000.5" |}.

(** A state right after start with the given BRL and BTC balances stored. *)
Definition holding (brl btc : string) : state :=
  set_balance "BTC" (lit btc) (set_balance "BRL" (lit brl) (init_state [])).

(** * Comparisons of floats *)

Lemma SFcompare_swap (x y : float) :
  SFcompare y x = option_map CompOpp (SFcompare x y).
Proof.
  assert (Hm : forall m n, Pos.compare_cont Eq n m = CompOpp (Pos.compare_cont Eq m n)).
  { intros m n. rewrite Pos.compare_cont_antisym. reflexivity. }
  destruct x as [sx|sx| |sx mx ex], y as [sy|sy| |sy my ey];
    try destruct sx; try destruct sy; try reflexivity; simpl;
    rewrite (Z.compare_antisym ex ey); destruct (ex ?= ey); simpl; try reflexivity;
    rewrite (Hm mx my); try rewrite CompOpp_involutive; reflexivity.
Qed.

Lemma ltb_swap_false (x y : float) : Float.ltb x y = true -> Float.ltb y x = false.
Proof.
  unfold Float.ltb, SFltb. rewrite (SFcompare_swap x y).
  destruct (SFcompare x y) as [[]|]; simpl; congruence.
Qed.

Lemma leb_ltb_false (x y : float) : Float.leb x y = true -> Float.ltb y x = false.
Proof.
  unfold Float.leb, Float.ltb, SFleb, SFltb. rewrite (SFcompare_swap x y).
  destruct (SFcompare x y) as [[]|]; simpl; congruence.
Qed.

Lemma ltb_leb_false (x y : float) : Float.ltb x y = true -> Float.leb y x = false.
Proof.
  unfold Float.leb, Float.ltb, SFleb, SFltb. rewrite (SFcompare_swap x y).
  destruct (SFcompare x y) as [[]|]; simpl; congruence.
Qed.

(** A float that is neither at most zero nor above zero is a NaN, and a NaN
    is below nothing and above nothing. *)
Lemma not_leb_not_ltb_zero (p c : float) :
  Float.leb p Float.zero = false -> Float.ltb Float.zero p = false ->
  Float.ltb p c = false /\ Float.ltb c p = false.
Proof.
  destruct p as [s|s| |s m e]; try destruct s; try discriminate.
  intros _ _. split; [reflexivity|]. destruct c as [[]|[]| |[] ? ?]; reflexivity.
Qed.

Lemma ltb_zero_not_zero (p : float) :
  Float.ltb Float.zero p = true -> Float.is_zero p = false.
Proof. destruct p; [discriminate|reflexivity..]. Qed.

(** Below the buy threshold is not above the sell threshold. *)
(** Two positive finite floats of one exponent order by their mantissas:
    nothing below the smaller one is above the larger one. *)
Lemma finite_below_not_above (e0 : Z) (lo hi m : positive) (e : Z) :
  (lo < hi)%positive ->
  SFltb (S754_finite false m e) (S754_finite false lo e0) = true ->
  SFltb (S754_finite false hi e0) (S754_finite false m e) = false.
Proof.
  intros Hlh. unfold SFltb. cbn [SFcompare].
  rewrite (Z.compare_antisym e e0), !Pos.compare_cont_spec. unfold Pos.switch_Eq.
  rewrite (Pos.compare_antisym m hi).
  destruct (Z.compare_spec e e0); cbn [CompOpp]; try discriminate; try reflexivity.
  destruct (Pos.compare_spec m lo); try discriminate.
  intros _. destruct (Pos.compare_spec m hi); cbn [CompOpp]; try reflexivity. lia.
Qed.

(** Below the buy threshold is not above the sell threshold. *)
Lemma below_buy_not_above_sell (p : float) :
  Float.ltb p BUY_BELOW = true -> Float.ltb SELL_ABOVE p = false.
Proof.
  destruct p as [[]|[]| |[] m e]; try reflexivity; try discriminate.
  apply (finite_below_not_above (-36) 6871947673600000 8246337208320000 m e).
  reflexivity.
Qed.

(** The condition tree of lines 195-212 as one case distinction, for every
    price and all balances. *)
Lemma decide_order_cases (btc_price : float) (balances : gmap string float) :
  let brl := balance_of balances "BRL" in
  let btc := balance_of balances "BTC" in
  decide_order btc_price balances =
    Ok (if Float.leb btc_price Float.zero then None
        else if Float.ltb btc_price BUY_BELOW && Float.ltb MIN_BRL brl
             then Some (BUY, Float.div brl btc_price)
        else if Float.ltb SELL_ABOVE btc_price && Float.ltb MIN_BTC btc
             then Some (SELL, btc)
        else None)
  /\ (Float.leb BUY_BELOW btc_price = true ->
      Float.leb btc_price SELL_ABOVE = true ->
      decide_order btc_price balances = Ok None).
Proof.
  intros brl btc. unfold decide_order. fold brl btc. split.
  - destruct (Float.leb btc_price Float.zero) eqn:Hle.
    + rewrite (leb_ltb_false _ _ Hle). reflexivity.
    + destruct (Float.ltb Float.zero btc_price) eqn:Hpos.
      * destruct (Float.ltb btc_price BUY_BELOW) eqn:Hbuy; simpl.
        -- destruct (Float.ltb MIN_BRL brl); simpl.
           ++ unfold Float.truediv. rewrite (ltb_zero_not_zero _ Hpos). reflexivity.
           ++ rewrite (below_buy_not_above_sell _ Hbuy). reflexivity.
        -- destruct (Float.ltb SELL_ABOVE btc_price); simpl; [|reflexivity].
           destruct (Float.ltb MIN_BTC btc); reflexivity.
      * destruct (not_leb_not_ltb_zero btc_price BUY_BELOW Hle Hpos) as [-> _].
        destruct (not_leb_not_ltb_zero btc_price SELL_ABOVE Hle Hpos) as [_ ->].
        reflexivity.
  - intros Hlo Hhi.
    rewrite (leb_ltb_false _ _ Hlo), (leb_ltb_false _ _ Hhi).
    destruct (Float.ltb Float.zero btc_price); reflexivity.
Qed.

(** * The chain *)

Lemma create_block_eq (now : float) (op : pydict) (chain : list block) :
  create_block now op chain
  = Ok (next_block now op chain, chain ++ [next_block now op chain]).
Proof. reflexivity. Qed.

Lemma tip_snoc (chain : list block) (b : block) : tip (chain ++ [b]) = hash b.
Proof. unfold tip. rewrite last_snoc. reflexivity. Qed.

Lemma append_op_ok (chain : list block) (top : float * pydict) :
  append_op (Ok chain) top = Ok (chain ++ [next_block (fst top) (snd top) chain]).
Proof. reflexivity. Qed.

Lemma append_all_snoc (ops : list (float * pydict)) (top : float * pydict) :
  append_all (ops ++ [top]) = append_op (append_all ops) top.
Proof. unfold append_all. rewrite fold_left_app. reflexivity. Qed.

Lemma tip_linked (chain : list block) (b : block) :
  prev_hash b = tip chain -> linked (chain ++ [b]) (length chain) b.
Proof.
  intros Hb. destruct chain as [|c chain] using rev_ind; [exact Hb|].
  rewrite tip_snoc in Hb. rewrite length_app, Nat.add_comm. simpl.
  exists c. split; [|exact Hb].
  rewrite lookup_app_l by (rewrite length_app; simpl; lia).
  rewrite lookup_app_r by lia. rewrite Nat.sub_diag. reflexivity.
Qed.

Lemma linked_app (chain extra : list block) (i : nat) (b : block) :
  linked chain i b -> linked (chain ++ extra) i b.
Proof.
  destruct i as [|j]; simpl; [trivial|].
  intros [p [Hp Hb]]. exists p. split; [|exact Hb].
  apply lookup_app_l_Some. exact Hp.
Qed.

Lemma last_cons_default (p : string) (c : block) (chain : list block) :
  match last (c :: chain) with Some x => hash x | None => p end
  = match last chain with Some x => hash x | None => hash c end.
Proof. rewrite last_cons. destruct (last chain); reflexivity. Qed.

Lemma verify_from_snoc (p : string) (chain : list block) (b : block) :
  verify_from p (chain ++ [b])
  = verify_from p chain
    && String.eqb (prev_hash b) (match last chain with Some x => hash x | None => p end)
    && String.eqb (hash b)
         (SHA256.hexdigest (prev_hash b +:+ Json.encode true (PDict (operation b)))).
Proof.
  revert p. induction chain as [|c chain IH]; intros p.
  - cbn [verify_from app last]. rewrite andb_true_r. reflexivity.
  - rewrite last_cons_default. cbn [verify_from app]. rewrite IH.
    rewrite <- !andb_assoc. reflexivity.
Qed.

Lemma verify_snoc_next (now : float) (op : pydict) (chain : list block) :
  verify chain = true -> verify (chain ++ [next_block now op chain]) = true.
Proof.
  intros Hv. unfold verify in *. rewrite verify_from_snoc, Hv.
  cbn [next_block prev_hash hash operation]. fold (tip chain).
  rewrite !String.eqb_refl. reflexivity.
Qed.

Lemma appended_nil : appended [] [].
Proof. split; [reflexivity|reflexivity|]. intros i b H. destruct i; discriminate. Qed.

Lemma appended_snoc ops chain top :
  appended ops chain ->
  appended (ops ++ [top]) (chain ++ [next_block (fst top) (snd top) chain]).
Proof.
  intros [Hl Hv Hb]. split.
  - rewrite !length_app, Hl. reflexivity.
  - apply verify_snoc_next, Hv.
  - intros i b Hi. destruct (decide (i < length chain)%nat) as [Hlt|Hge].
    + rewrite lookup_app_l in Hi by exact Hlt.
      destruct (Hb i b Hi) as [H1 [H2 [t [Ht Hto]]]].
      split; [exact H1|]. split; [apply linked_app, H2|].
      exists t. split; [|exact Hto]. apply lookup_app_l_Some, Ht.
    + rewrite lookup_app_r in Hi by lia.
      destruct (i - length chain)%nat as [|n] eqn:Hn; [|destruct n; discriminate].
      assert (i = length chain) as -> by lia.
      injection Hi as <-. split; [reflexivity|]. split.
      * apply (tip_linked chain). reflexivity.
      * exists top. split; [|split; reflexivity].
        rewrite lookup_app_r by lia. rewrite Hl, Nat.sub_diag. reflexivity.
Qed.

Lemma append_all_appended (ops : list (float * pydict)) :
  exists chain, append_all ops = Ok chain /\ appended ops chain.
Proof.
  induction ops as [|top ops IH] using rev_ind.
  - exists []. split; [reflexivity|apply appended_nil].
  - destruct IH as [chain [Hc Ha]].
    exists (chain ++ [next_block (fst top) (snd top) chain]). split.
    + rewrite append_all_snoc, Hc. apply append_op_ok.
    + apply appended_snoc, Ha.
Qed.

Lemma GENESIS_zeros :
  GENESIS = "0000000000000000000000000000000000000000000000000000000000000000".
Proof. reflexivity. Qed.

(** C1: for every sequence of operations appended with [create_block] to
    the empty chain, every append returns, the chain has one block per
    operation, [verify] accepts it, and block [i] holds the [i]-th
    operation, has [hash = SHA256(prev_hash || json.dumps(operation,
    sort_keys=True))], and has for [prev_hash] the 64 zeros when [i = 0] and
    the hash of block [i - 1] otherwise. *)
Theorem appended_chain_verifies (ops : list (float * pydict)) :
  exists chain,
    append_all ops = Ok chain /\
    length chain = length ops /\
    verify chain = true /\
    forall (i : nat) (b : block), chain !! i = Some b ->
      hash b = SHA256.hexdigest (prev_hash b +:+ Json.encode true (PDict (operation b))) /\
      (exists top, ops !! i = Some top /\ operation b = snd top) /\
      match i with
      | O => prev_hash b = str_mul "0" 64
      | S j => exists p, chain !! j = Some p /\ prev_hash b = hash p
      end.
Proof.
  destruct (append_all_appended ops) as [chain [Hc [Hl Hv Hb]]].
  exists chain. repeat split; try assumption.
  - apply (Hb i b H).
  - destruct (Hb i b H) as [_ [_ [t [Ht [_ Ho]]]]]. exists t. split; assumption.
  - destruct (Hb i b H) as [_ [Hk _]]. exact Hk.
Qed.

(** * What each part of a pass leaves alone *)

Lemma spot_loop_frame (e : env) (items : list (pyval * float)) (st : state) :
  let st' := fst (spot_loop e items st) in
  blockchain st' = blockchain st /\
  prev_onchain_btc st' = prev_onchain_btc st /\
  btc_addresses st' = btc_addresses st.
Proof.
  revert st. induction items as [|[k amount] items IH]; intros st; simpl.
  - auto.
  - destruct k; simpl; auto.
    destruct (IH (logging (LogSpot s amount
                 (Float.mul amount (get_brl_price (ticker e) s))
                 (Float.sub amount (default Float.zero (prev_balances st !! s))))
                 (set_balance s amount st))) as [H1 [H2 H3]].
    auto.
Qed.

Lemma onchain_loop_frame (e : env) (i : nat) (addrs : list string) (st : state) :
  let st' := onchain_loop e i addrs st in
  blockchain st' = blockchain st /\
  prev_balances st' = prev_balances st /\
  btc_addresses st' = btc_addresses st.
Proof.
  revert i st. induction addrs as [|a addrs IH]; intros i st; simpl; [auto|].
  destruct (get_btc_onchain_balance (explorer e i) a) as [bal|ex].
  - destruct (IH (S i) (logging (LogOnchain a bal
                   (Float.sub bal (default Float.zero (prev_onchain_btc st !! a))))
                   (set_onchain a bal st))) as [H1 [H2 H3]]. auto.
  - destruct (IH (S i) (logging (LogOnchainError a ex) st)) as [H1 [H2 H3]]. auto.
Qed.

(** The submission step, by what the exchange answered. *)
Lemma submit_and_record_ok e sd q price st order :
  place_order e "BTCBRL" (side_str sd) q = Ok order ->
  submit_and_record e sd q price st
  = let b := next_block (now e) (trade_operation (side_str sd) q price) (blockchain st) in
    logging (match sd with BUY => LogBuy b | SELL => LogSell b end)
            (with_blockchain (blockchain st ++ [b]) st).
Proof. intros H. unfold submit_and_record. rewrite H. reflexivity. Qed.

Lemma submit_and_record_fail e sd q price st ex :
  place_order e "BTCBRL" (side_str sd) q = Raise ex ->
  submit_and_record e sd q price st
  = logging (match sd with BUY => LogBuyError ex | SELL => LogSellError ex end) st.
Proof. intros H. unfold submit_and_record. rewrite H. reflexivity. Qed.

Lemma grows_refl (c : list block) : grows_by_at_most_one c c.
Proof. left. reflexivity. Qed.

Lemma grows_prefix (old new : list block) :
  grows_by_at_most_one old new -> old `prefix_of` new.
Proof. intros [->|[t [op ->]]]; [reflexivity|]. eexists. reflexivity. Qed.

Lemma grows_length (old new : list block) :
  grows_by_at_most_one old new ->
  (length old <= length new <= S (length old))%nat.
Proof. intros [->|[t [op ->]]]; [lia|]. rewrite length_app. simpl. lia. Qed.

Lemma grows_verify (old new : list block) :
  grows_by_at_most_one old new -> verify old = true -> verify new = true.
Proof. intros [->|[t [op ->]]] Hv; [exact Hv|]. apply verify_snoc_next, Hv. Qed.

Lemma submit_and_record_frame e sd q price st :
  let st' := submit_and_record e sd q price st in
  grows_by_at_most_one (blockchain st) (blockchain st') /\
  prev_balances st' = prev_balances st /\
  prev_onchain_btc st' = prev_onchain_btc st.
Proof.
  destruct (place_order e "BTCBRL" (side_str sd) q) as [order|ex] eqn:H; cbn zeta.
  - rewrite (submit_and_record_ok _ _ _ _ _ _ H).
    cbn [logging with_blockchain blockchain prev_balances prev_onchain_btc].
    split; [|auto]. right.
    exists (now e), (trade_operation (side_str sd) q price). reflexivity.
  - rewrite (submit_and_record_fail _ _ _ _ _ _ H).
    cbn [logging blockchain prev_balances prev_onchain_btc].
    split; [apply grows_refl|auto].
Qed.

(** The buy/sell step is the rule followed by the submission. *)
Lemma trade_step_decide (e : env) (st : state) :
  let btc_price := get_brl_price (fun _ => btc_ticker e) "BTC" in
  trade_step e st =
    match decide_order btc_price (prev_balances st) with
    | Ok (Some (sd, q)) => (submit_and_record e sd q btc_price st, Ok tt)
    | Ok None => (st, Ok tt)
    | Raise ex => (st, Raise ex)
    end.
Proof.
  intros btc_price. unfold trade_step, decide_order. fold btc_price.
  destruct (Float.ltb Float.zero btc_price); [|reflexivity].
  destruct (Float.ltb btc_price BUY_BELOW).
  - destruct (Float.ltb MIN_BRL (balance_of (prev_balances st) "BRL")); [|reflexivity].
    destruct (Float.truediv (balance_of (prev_balances st) "BRL") btc_price); reflexivity.
  - destruct (Float.ltb SELL_ABOVE btc_price); [|reflexivity].
    destruct (Float.ltb MIN_BTC (balance_of (prev_balances st) "BTC")); reflexivity.
Qed.

Lemma trade_step_frame (e : env) (st : state) :
  let st' := fst (trade_step e st) in
  grows_by_at_most_one (blockchain st) (blockchain st') /\
  prev_balances st' = prev_balances st /\
  prev_onchain_btc st' = prev_onchain_btc st.
Proof.
  rewrite trade_step_decide.
  destruct (decide_order _ _) as [[[sd q]|]|ex]; cbn [fst];
    [apply submit_and_record_frame|split; [apply grows_refl|auto]..].
Qed.

Lemma monitor_cycle_grows (e : env) (st : state) :
  grows_by_at_most_one (blockchain st) (blockchain (monitor_cycle e st)).
Proof.
  unfold monitor_cycle, cycle_body.
  destruct (let* acct := spot_account e in get_nonzero_balances acct) as [nonzero|ex];
    [|apply grows_refl].
  pose proof (spot_loop_frame e nonzero st) as [H1 _].
  destruct (spot_loop e nonzero st) as [st1 [[]|ex]]; cbn [fst] in H1;
    [|cbn [logging blockchain]; rewrite H1; apply grows_refl].
  pose proof (onchain_loop_frame e 0 (btc_addresses st1) st1) as [H2 _].
  pose proof (trade_step_frame e (onchain_loop e 0 (btc_addresses st1) st1)) as [H3 _].
  cbn zeta in H2, H3. rewrite H2, H1 in H3.
  destruct (trade_step e (onchain_loop e 0 (btc_addresses st1) st1)) as [st3 [[]|ex]];
    exact H3.
Qed.

Lemma ordem_try_frame (e : env) (sd : string) (qty : float) (st : state) :
  let st' := snd (ordem_try e sd qty st) in
  grows_by_at_most_one (blockchain st) (blockchain st') /\
  prev_balances st' = prev_balances st /\
  prev_onchain_btc st' = prev_onchain_btc st /\
  log st' = log st.
Proof.
  unfold ordem_try. destruct (place_order e "BTCBRL" sd qty); cbn [bind].
  - rewrite create_block_eq.
    cbn [bind snd with_blockchain blockchain prev_balances prev_onchain_btc log].
    split; [|auto]. right.
    exists (now e),
           (trade_operation sd qty (get_brl_price (fun _ => btc_ticker e) "BTC")).
    reflexivity.
  - cbn [snd]. split; [apply grows_refl|auto].
Qed.

Lemma api_ordem_frame (upper : string -> string) (e : env) (data : pyval) (st : state) :
  let st' := snd (api_ordem upper e data st) in
  grows_by_at_most_one (blockchain st) (blockchain st') /\
  prev_balances st' = prev_balances st /\
  prev_onchain_btc st' = prev_onchain_btc st /\
  log st' = log st.
Proof.
  ordem_cases data; try (split; [apply grows_refl|auto]). apply ordem_try_frame.
Qed.

Lemma step_grows (upper : string -> string) (st : state) (ev : event) :
  grows_by_at_most_one (blockchain st) (blockchain (step upper st ev)).
Proof.
  destruct ev; cbn [step]; try apply grows_refl.
  - apply monitor_cycle_grows.
  - apply api_ordem_frame.
Qed.

Lemma run_snoc (upper : string -> string) addrs evs ev :
  run upper addrs (evs ++ [ev]) = step upper (run upper addrs evs) ev.
Proof. unfold run. rewrite fold_left_app. reflexivity. Qed.

Lemma fold_step_prefix (upper : string -> string) (evs : list event) (st : state) :
  blockchain st `prefix_of` blockchain (fold_left (step upper) evs st).
Proof.
  revert st. induction evs as [|ev evs IH]; intros st; simpl; [reflexivity|].
  etrans; [apply grows_prefix, (step_grows upper st ev)|apply IH].
Qed.

(** C9: the chain starts empty; [create_block] returns the block it stored
    last, grows the chain by exactly that block and leaves every earlier
    position as it was; every pass of the loop and every request keeps the
    chain it found as a prefix of the chain it leaves and adds at most one
    block to it, so along a run the chain only grows. *)
Theorem chain_append_only (upper : string -> string) :
  (forall addresses, blockchain (init_state addresses) = []) /\
  (forall now op chain, exists b,
      create_block now op chain = Ok (b, chain ++ [b]) /\
      last (chain ++ [b]) = Some b /\
      length (chain ++ [b]) = S (length chain) /\
      forall i, (i < length chain)%nat -> (chain ++ [b]) !! i = chain !! i) /\
  (forall st ev,
      blockchain st `prefix_of` blockchain (step upper st ev) /\
      (length (blockchain st) <= length (blockchain (step upper st ev))
       <= S (length (blockchain st)))%nat) /\
  (forall addresses evs more,
      blockchain (run upper addresses evs)
        `prefix_of` blockchain (run upper addresses (evs ++ more))).
Proof.
  split; [reflexivity|]. split; [|split].
  - intros now op chain. exists (next_block now op chain).
    rewrite create_block_eq, last_snoc, length_app. cbn [length].
    repeat split; [lia|]. intros i Hi. apply lookup_app_l. exact Hi.
  - intros st ev. split; [apply grows_prefix|apply grows_length]; apply step_grows.
  - intros addresses evs more. unfold run. rewrite fold_left_app. apply fold_step_prefix.
Qed.

(** Every chain the running system holds verifies. *)
Lemma reachable_chain_verifies (upper : string -> string) addresses (evs : list event) :
  verify (blockchain (run upper addresses evs)) = true.
Proof.
  induction evs as [|ev evs IH] using rev_ind; [reflexivity|].
  rewrite run_snoc. exact (grows_verify _ _ (step_grows upper _ ev) IH).
Qed.

(** * The spot balances *)

Lemma key_eqb_str (k : pyval) (a : string) :
  key_eqb k (PStr a) = true -> k = PStr a.
Proof.
  destruct k as [|b|z|f|s|l|d]; simpl; try discriminate.
  intros H. apply String.eqb_eq in H. congruence.
Qed.

Lemma key_set_keys {asset : string} (k : pyval) (v : float) (out : list (pyval * float)) :
  has_key asset (key_set k v out) = true ->
  has_key asset out = true \/ k = PStr asset.
Proof.
  induction out as [|[k' v'] out IH]; cbn [key_set has_key existsb fst].
  - destruct k; try discriminate. rewrite orb_false_r. intros H.
    apply String.eqb_eq in H. right. congruence.
  - destruct (key_eqb k' k); cbn [has_key existsb fst]; [auto|].
    fold (has_key asset (key_set k v out)). fold (has_key asset out).
    intros H. apply orb_true_iff in H as [H|H].
    + left. rewrite H. reflexivity.
    + destruct (IH H) as [H'|H']; [left|right; exact H'].
      rewrite H'. apply orb_true_r.
Qed.

Lemma key_set_positive (k : pyval) (v : float) (out : list (pyval * float)) :
  Float.ltb Float.zero v = true -> all_positive out -> all_positive (key_set k v out).
Proof.
  intros Hv. induction out as [|[k' v'] out IH]; intros Hout; cbn [key_set].
  - apply Forall_cons. split; [exact Hv|constructor].
  - apply Forall_cons in Hout as [H1 H2].
    destruct (key_eqb k' k); apply Forall_cons; split;
      first [assumption | exact (IH H2)].
Qed.

Lemma nonzero_loop_keys (asset : string) (bs : list pyval) :
  forall out out', nonzero_loop bs out = Ok out' ->
    has_key asset out' = true ->
    has_key asset out = true \/ existsb (positive_entry asset) bs = true.
Proof.
  induction bs as [|b bs IH]; intros out out'; cbn [nonzero_loop existsb].
  - intros [= <-]. auto.
  - unfold positive_entry at 1. destruct (entry_total b) as [t|ex]; cbn [bind]; [|discriminate].
    destruct (Float.ltb Float.zero t); cbn [andb].
    + destruct (py_getitem b "asset") as [k|ex]; cbn [bind]; [|discriminate].
      destruct (hashable k); [|discriminate].
      intros Hl Hk. destruct (IH _ _ Hl Hk) as [H|H].
      * destruct (key_set_keys _ _ _ H) as [H'| ->]; [auto|].
        right. rewrite String.eqb_refl. reflexivity.
      * right. rewrite H. apply orb_true_r.
    + intros Hl Hk. destruct (IH _ _ Hl Hk) as [H|H]; [auto|].
      right. rewrite H.
      destruct (py_getitem b "asset") as [[]|]; reflexivity.
Qed.

Lemma nonzero_loop_positive (bs : list pyval) :
  forall out out', nonzero_loop bs out = Ok out' -> all_positive out -> all_positive out'.
Proof.
  induction bs as [|b bs IH]; intros out out'; cbn [nonzero_loop].
  - intros [= <-]. auto.
  - destruct (entry_total b) as [t|ex]; cbn [bind]; [|discriminate].
    destruct (Float.ltb Float.zero t) eqn:Ht; [|apply IH].
    destruct (py_getitem b "asset") as [k|ex]; cbn [bind]; [|discriminate].
    destruct (hashable k); [|discriminate].
    intros Hl Hout. apply (IH _ _ Hl). apply key_set_positive; assumption.
Qed.

Lemma get_nonzero_balances_spec (account_json : pyval) (nonzero : list (pyval * float)) :
  get_nonzero_balances account_json = Ok nonzero ->
  all_positive nonzero /\
  forall asset, fetched_positive account_json asset = false -> has_key asset nonzero = false.
Proof.
  unfold get_nonzero_balances, fetched_positive.
  destruct (py_get account_json "balances" (PList [])) as [balances|]; cbn [bind]; [|discriminate].
  destruct (py_iter balances) as [bs|]; cbn [bind]; [|discriminate].
  intros Hl. split.
  - apply (nonzero_loop_positive bs [] nonzero Hl). constructor.
  - intros asset Hf. destruct (has_key asset nonzero) eqn:Hk; [|reflexivity].
    destruct (nonzero_loop_keys asset bs [] nonzero Hl Hk) as [H|H];
      [discriminate|congruence].
Qed.

Lemma spot_loop_lookup (e : env) (asset : string) (items : list (pyval * float)) :
  forall st, has_key asset items = false ->
    prev_balances (fst (spot_loop e items st)) !! asset = prev_balances st !! asset.
Proof.
  induction items as [|[k amount] items IH]; intros st; cbn [spot_loop has_key existsb fst].
  - reflexivity.
  - fold (has_key asset items). intros H. apply orb_false_iff in H as [Hk Hi].
    destruct k; try reflexivity.
    rewrite (IH _ Hi). cbn [logging set_balance prev_balances].
    apply lookup_insert_ne. intros ->. rewrite String.eqb_refl in Hk. discriminate.
Qed.

Lemma spot_loop_positive (e : env) (items : list (pyval * float)) :
  forall st, all_positive items -> balances_positive (prev_balances st) ->
    balances_positive (prev_balances (fst (spot_loop e items st))).
Proof.
  induction items as [|[k amount] items IH]; intros st Hi Hst; cbn [spot_loop fst].
  - exact Hst.
  - apply Forall_cons in Hi as [H1 H2]. destruct k; try exact Hst.
    apply IH; [exact H2|]. cbn [logging set_balance prev_balances].
    apply map_Forall_insert_2; assumption.
Qed.

Lemma spot_loop_keeps (e : env) (asset : string) (items : list (pyval * float)) :
  forall st, is_Some (prev_balances st !! asset) ->
    is_Some (prev_balances (fst (spot_loop e items st)) !! asset).
Proof.
  induction items as [|[k amount] items IH]; intros st H; cbn [spot_loop fst].
  - exact H.
  - destruct k; try exact H. apply IH. cbn [logging set_balance prev_balances].
    apply lookup_insert_is_Some. destruct (decide (s = asset)); auto.
Qed.

(** Only the spot loop writes [prev_balances] in a pass. *)
Lemma monitor_cycle_prev_balances (e : env) (st : state) :
  prev_balances (monitor_cycle e st)
  = match (let* acct := spot_account e in get_nonzero_balances acct) with
    | Ok nonzero => prev_balances (fst (spot_loop e nonzero st))
    | Raise _ => prev_balances st
    end.
Proof.
  unfold monitor_cycle, cycle_body.
  destruct (let* acct := spot_account e in get_nonzero_balances acct) as [nonzero|ex];
    [|reflexivity].
  destruct (spot_loop e nonzero st) as [st1 [[]|ex]]; [|reflexivity].
  pose proof (onchain_loop_frame e 0 (btc_addresses st1) st1) as [_ [H2 _]].
  pose proof (trade_step_frame e (onchain_loop e 0 (btc_addresses st1) st1)) as [_ [H3 _]].
  cbn zeta in H2, H3. cbn [fst].
  destruct (trade_step e (onchain_loop e 0 (btc_addresses st1) st1)) as [st3 [[]|ex']];
    cbn [fst logging prev_balances] in *; congruence.
Qed.

(** The stored spot balances after a pass: those before, except for the
    assets the fetch gave a total above zero; none is removed, and all stay
    above zero. *)
Lemma monitor_cycle_balances (e : env) (st : state) :
  (balances_positive (prev_balances st) ->
   balances_positive (prev_balances (monitor_cycle e st))) /\
  (forall asset,
    (forall acct, spot_account e = Ok acct -> fetched_positive acct asset = false) ->
    prev_balances (monitor_cycle e st) !! asset = prev_balances st !! asset) /\
  (forall asset,
    is_Some (prev_balances st !! asset) ->
    is_Some (prev_balances (monitor_cycle e st) !! asset)).
Proof.
  rewrite monitor_cycle_prev_balances.
  destruct (spot_account e) as [acct|ex]; cbn [bind]; [|auto].
  destruct (get_nonzero_balances acct) as [nonzero|ex] eqn:Hn; [|auto].
  destruct (get_nonzero_balances_spec _ _ Hn) as [Hpos Hkeys].
  split; [apply spot_loop_positive, Hpos|]. split.
  - intros asset Hf. apply spot_loop_lookup, Hkeys, (Hf acct eq_refl).
  - intros asset. apply spot_loop_keeps.
Qed.

(** No request and no pass removes an asset from the stored balances. *)
Lemma stored_assets_never_removed (upper : string -> string) (st : state)
    (ev : event) (asset : string) :
  is_Some (prev_balances st !! asset) ->
  is_Some (prev_balances (step upper st ev) !! asset).
Proof.
  destruct ev as [e| | |e data]; cbn [step]; trivial.
  - apply monitor_cycle_balances.
  - rewrite (proj1 (proj2 (api_ordem_frame upper e data st))). trivial.
Qed.

Lemma reachable_balances_positive (upper : string -> string) addresses (evs : list event) :
  balances_positive (prev_balances (run upper addresses evs)).
Proof.
  induction evs as [|ev evs IH] using rev_ind.
  - apply map_Forall_empty.
  - rewrite run_snoc. destruct ev as [e| | |e data]; cbn [step]; try exact IH.
    + apply monitor_cycle_balances, IH.
    + rewrite (proj1 (proj2 (api_ordem_frame upper e data _))). exact IH.
Qed.

(** C10: in a state the system can reach, an asset that has a stored spot
    balance [v] and that the next fetch gives no total above zero (a zero
    total, or no entry) still has [v] stored after the pass; [v] is above
    zero, [/saldo] answers it and the buy/sell rule reads it. *)
Theorem stale_balance_kept (upper : string -> string) addresses (evs : list event) (e : env)
    (asset : string) (v : float) :
  let st := run upper addresses evs in
  let st' := monitor_cycle e st in
  prev_balances st !! asset = Some v ->
  (forall acct, spot_account e = Ok acct -> fetched_positive acct asset = false) ->
  prev_balances st' !! asset = Some v /\
  Float.ltb Float.zero v = true /\
  (exists onchain spot,
      api_saldo st' = Response 200 (SaldoBody spot onchain) /\ spot !! asset = Some v) /\
  balance_of (prev_balances st') asset = v.
Proof.
  intros st st' Hv Hf.
  assert (H : prev_balances st' !! asset = Some v).
  { unfold st'. rewrite (proj1 (proj2 (monitor_cycle_balances e st)) asset Hf). exact Hv. }
  split; [exact H|]. split.
  - exact (reachable_balances_positive upper addresses evs asset v Hv).
  - split.
    + exists (prev_onchain_btc st'), (prev_balances st'). split; [reflexivity|exact H].
    + unfold balance_of. rewrite H. reflexivity.
Qed.

(** * The interpreter's functions on known inputs *)

Example sha256_abc :
  SHA256.hexdigest "abc"
  = "ba7816bf8f01cfea414140de5dae2223b00361a396177a9cb410ff61f20015ad".
Proof. vm_compute. reflexivity. Qed.

Example sha256_utf8 :
  SHA256.hexdigest (string_of_list_ascii (map ascii_of_nat [99; 97; 102; 233; 32; 255]%nat))
  = "7c06cae138dbd8967aaab71bee84bcec21d1848d2c2467e99fcc500dba2beae5".
Proof. vm_compute. reflexivity. Qed.

Example sha256_two_blocks :
  SHA256.hexdigest "abcdbcdecdefdefgefghfghighijhijkijkljklmklmnlmnomnopnopq"
  = "248d6a61d20638b8e5c026930c3e6039a33ce45964ff2167f6ecedd419db06c1".
Proof. vm_compute. reflexivity. Qed.

Example float_repr_known :
  map (fun s => Float.repr (lit s))
      ["0.1"; "50"; "1e16"; "1e22"; "0.00001"; "5e-324"; "123456789012345680";
       "0.30000000000000004"; "-0.0"; "99999.00"]
  = ["0.1"; "50.0"; "1e+16"; "1e+22"; "1e-05"; "5e-324"; "1.2345678901234568e+17";
     "0.30000000000000004"; "-0.0"; "99999.0"].
Proof. vm_compute. reflexivity. Qed.

Example float_of_string_known :
  map Float.of_string ["0.00100000"; " 1_0.5e1 "; "-Infinity"; "nan"; "abc"; "1__0"; ""]
  = [Some (S754_finite false 4611686018427388 (-62));
     Some (S754_finite false 7388718138654720 (-46));
     Some (S754_infinity true); Some S754_nan; None; None; None].
Proof. vm_compute. reflexivity. Qed.

Example thresholds_read :
  map Float.repr [BUY_BELOW; SELL_ABOVE; MIN_BRL; MIN_BTC; SATS_PER_BTC]
  = ["100000.0"; "120000.0"; "10.0"; "0.0001"; "100000000.0"].
Proof. vm_compute. reflexivity. Qed.

(** [json.dumps({"side": "BUY", "asset": "BTC", "quantity": 0.001,
    "price": 650000.0}, sort_keys=True)] *)
Example json_dumps_known :
  Json.dumps (PDict (trade_operation "BUY" (lit "0.001") (lit "650000.0"))) true true
  = Ok ("{" +:+ Json.quote "asset" +:+ ": " +:+ Json.quote "BTC" +:+ ", "
            +:+ Json.quote "price" +:+ ": 650000.0, "
            +:+ Json.quote "quantity" +:+ ": 0.001, "
            +:+ Json.quote "side" +:+ ": " +:+ Json.quote "BUY" +:+ "}").
Proof. vm_compute. reflexivity. Qed.

(** The first two blocks for that operation, as the interpreter computes
    them. *)
Example two_blocks_known :
  option_map (map hash)
    (match append_all [ (lit "1700000000.5", trade_operation "BUY" (lit "0.001") (lit "650000.0"));
                        (lit "1700000030.5", trade_operation "BUY" (lit "0.001") (lit "650000.0")) ]
     with Ok c => Some c | Raise _ => None end)
  = Some [ "c2376d36566212e102f15c0c7c1aee0b52301c5751187943550891d8e92831d6";
           "023085edd4459029e575a12b117e3293bc1a32ee0f49045e1b5c0117fc70ada3" ].
Proof. vm_compute. reflexivity. Qed.

(** * The rule on the prices and balances of section 8 *)

Example decide_buy :
  decide_order (lit "99999") {[ "BRL" := lit "50"; "BTC" := lit "0" ]}
  = Ok (Some (BUY, Float.div (lit "50") (lit "99999"))).
Proof. vm_compute. reflexivity. Qed.

Example decide_low_quote :
  decide_order (lit "99999") {[ "BRL" := lit "5"; "BTC" := lit "0" ]} = Ok None.
Proof. vm_compute. reflexivity. Qed.

Example decide_sell :
  decide_order (lit "120001") {[ "BRL" := lit "0"; "BTC" := lit "1" ]}
  = Ok (Some (SELL, lit "1")).
Proof. vm_compute. reflexivity. Qed.

Example decide_at_sell_threshold :
  decide_order (lit "120000") {[ "BRL" := lit "0"; "BTC" := lit "1" ]} = Ok None.
Proof. vm_compute. reflexivity. Qed.

Example decide_hold :
  decide_order (lit "110000") {[ "BRL" := lit "1000"; "BTC" := lit "1" ]} = Ok None.
Proof. vm_compute. reflexivity. Qed.

(** The step of the loop on the same prices and balances: what it appends,
    the exchange accepting every order. *)
Example trade_step_known :
  map (fun pb => map operation
                   (blockchain (fst (trade_step (accepting (with_btc_price (fst pb) offline))
                                                (holding (fst (snd pb)) (snd (snd pb)))))))
      [ ("99999", ("50", "0")); ("99999", ("10", "0")); ("100000", ("50", "1"));
        ("110000", ("1000", "1")); ("120000", ("1000", "1")); ("120001", ("0", "1"));
        ("120001", ("1000", "0.0001")); ("0", ("1000", "1")); ("-5", ("1000", "1"));
        ("nan", ("1000", "1")) ]
  = [ [trade_operation "BUY" (Float.div (lit "50") (lit "99999")) (lit "99999")]; []; [];
      []; []; [trade_operation "SELL" (lit "1") (lit "120001")];
      []; []; []; [] ].
Proof. vm_compute. reflexivity. Qed.

(** C3: the step of the loop that follows the balances (lines 194-220), for
    every price the ticker request gives and all stored balances. It does
    nothing when the price is at most zero; it submits a BUY of
    [brl / price] when the price is below 100000 and the BRL balance above
    10; otherwise it submits a SELL of the BTC balance when the price is
    above 120000 and the BTC balance above 0.0001; and it does nothing in
    every other case, in particular for every price from 100000 to 120000,
    both included. The comparisons are the strict ones of binary64, so a NaN
    price or balance gives no order. Submitting is [submit_and_record]:
    [place_order] with that side and quantity, then the block. *)
Theorem decide_policy (e : env) (st : state) :
  let btc_price := get_brl_price (fun _ => btc_ticker e) "BTC" in
  let brl := balance_of (prev_balances st) "BRL" in
  let btc := balance_of (prev_balances st) "BTC" in
  trade_step e st =
    (if Float.leb btc_price Float.zero then (st, Ok tt)
     else if Float.ltb btc_price BUY_BELOW && Float.ltb MIN_BRL brl
          then (submit_and_record e BUY (Float.div brl btc_price) btc_price st, Ok tt)
     else if Float.ltb SELL_ABOVE btc_price && Float.ltb MIN_BTC btc
          then (submit_and_record e SELL btc btc_price st, Ok tt)
     else (st, Ok tt))
  /\ (Float.leb BUY_BELOW btc_price = true ->
      Float.leb btc_price SELL_ABOVE = true ->
      trade_step e st = (st, Ok tt))
  /\ (forall p : float,
        btc_ticker e = Ok (PDict [("price", PFloat p)]) -> btc_price = p).
Proof.
  intros btc_price brl btc.
  destruct (decide_order_cases btc_price (prev_balances st)) as [H1 H2].
  cbv zeta in H1, H2. fold brl btc in H1. split; [|split].
  - rewrite trade_step_decide. fold btc_price. rewrite H1.
    destruct (Float.leb btc_price Float.zero); [reflexivity|].
    destruct (Float.ltb btc_price BUY_BELOW && Float.ltb MIN_BRL brl); [reflexivity|].
    destruct (Float.ltb SELL_ABOVE btc_price && Float.ltb MIN_BTC btc); reflexivity.
  - intros Hlo Hhi. rewrite trade_step_decide. fold btc_price.
    rewrite (H2 Hlo Hhi). reflexivity.
  - intros p Hp. unfold btc_price, get_brl_price. rewrite Hp. reflexivity.
Qed.

(** The hold zone of [decide_policy], at a price inside it: with 1000 BRL and
    1 BTC stored the step does nothing. *)
Lemma decide_policy_witness :
  let e := accepting (with_btc_price "110000" offline) in
  let st := holding "1000" "1" in
  let btc_price := get_brl_price (fun _ => btc_ticker e) "BTC" in
  Float.leb BUY_BELOW btc_price = true /\
  Float.leb btc_price SELL_ABOVE = true /\
  trade_step e st = (st, Ok tt).
Proof.
  intros e st btc_price.
  assert (Hlo : Float.leb BUY_BELOW btc_price = true) by (vm_compute; reflexivity).
  assert (Hhi : Float.leb btc_price SELL_ABOVE = true) by (vm_compute; reflexivity).
  split; [exact Hlo|]. split; [exact Hhi|].
  exact (proj1 (proj2 (decide_policy e st)) Hlo Hhi).
Defined.

(** * Submission and append *)

(** C2, as the code has it: in the loop and in the manual order handler a
    block is appended exactly when [place_order] returned; the block's
    operation has the side, asset, quantity and price of the order just
    submitted; when [place_order] raised the chain is unchanged. The loop
    then writes an error record to the log; the handler answers 500 with
    the error and leaves the whole state, log included, as it was. A pass
    submits exactly when the rule gives an order, and a request either never
    reaches the submission (state unchanged) or runs it once. *)
Theorem submission_coupled_with_append (e : env) (st : state) :
  (forall sd q price,
      let st' := submit_and_record e sd q price st in
      match place_order e "BTCBRL" (side_str sd) q with
      | Ok _ =>
          exists b, blockchain st' = blockchain st ++ [b] /\
                    operation b = trade_operation (side_str sd) q price /\
                    log st' = log st ++ [match sd with BUY => LogBuy b | SELL => LogSell b end]
      | Raise ex =>
          blockchain st' = blockchain st /\
          log st' = log st ++ [match sd with
                               | BUY => LogBuyError ex
                               | SELL => LogSellError ex
                               end]
      end) /\
  (let btc_price := get_brl_price (fun _ => btc_ticker e) "BTC" in
   trade_step e st =
     match decide_order btc_price (prev_balances st) with
     | Ok (Some (sd, q)) => (submit_and_record e sd q btc_price st, Ok tt)
     | Ok None => (st, Ok tt)
     | Raise ex => (st, Raise ex)
     end) /\
  (forall sd qty,
      let price := get_brl_price (fun _ => btc_ticker e) "BTC" in
      let r := fst (ordem_try e sd qty st) in
      let st' := snd (ordem_try e sd qty st) in
      match place_order e "BTCBRL" sd qty with
      | Ok order =>
          exists b, r = Response 200 (OrderBody order b) /\
                    blockchain st' = blockchain st ++ [b] /\
                    operation b = trade_operation sd qty price /\
                    log st' = log st
      | Raise ex => r = Response 500 (ErroBody (ErroExn ex)) /\ st' = st
      end) /\
  (forall upper data,
      api_ordem upper e data st = (fst (api_ordem upper e data st), st) \/
      exists sd qty, api_ordem upper e data st = ordem_try e sd qty st).
Proof.
  split; [|split; [|split]].
  - intros sd q price st'. unfold st'.
    destruct (place_order e "BTCBRL" (side_str sd) q) as [order|ex] eqn:H.
    + rewrite (submit_and_record_ok _ _ _ _ _ _ H). eexists. repeat split.
    + rewrite (submit_and_record_fail _ _ _ _ _ _ H). split; reflexivity.
  - apply trade_step_decide.
  - intros sd qty price r st'. unfold r, st', ordem_try. fold price.
    destruct (place_order e "BTCBRL" sd qty) as [order|ex]; cbn [bind fst snd].
    + rewrite create_block_eq. cbn [bind fst snd]. eexists. repeat split.
    + split; reflexivity.
  - intros upper data. ordem_cases data; try (left; reflexivity). right. eauto.
Qed.

(** C2 fails on a manual order the exchange rejects: the handler answers
    500 and no record is logged. *)
Lemma manual_order_failure_not_logged :
  let e := with_btc_price "650000.00" offline in
  let data := PDict [("side", PStr "buy"); ("quantity", PFloat (lit "0.001"))] in
  let st := init_state [] in
  place_order e "BTCBRL" "BUY" (lit "0.001") = Raise rejected /\
  api_ordem ascii_upper e data st = (Response 500 (ErroBody (ErroExn rejected)), st) /\
  log (snd (api_ordem ascii_upper e data st)) = [].
Proof. vm_compute. repeat split. Qed.

(** * Blocks and their position *)

(** C4, as the code has it: a block has the four keys [timestamp],
    [operation], [hash] and [prev_hash] and no sequence index of its own;
    its index is its place in the list. An append stores the block at
    position [len(chain)], and after appending [ops] to the empty chain the
    list has one block per operation, block [i] being the one of the [i]-th
    operation. *)
Theorem blocks_addressed_by_position (ops : list (float * pydict)) :
  (forall now op chain, exists b,
      create_block now op chain = Ok (b, chain ++ [b]) /\
      map fst (block_dict b) = ["timestamp"; "operation"; "hash"; "prev_hash"] /\
      (chain ++ [b]) !! length chain = Some b) /\
  exists chain,
    append_all ops = Ok chain /\
    length chain = length ops /\
    forall i top, ops !! i = Some top ->
      exists b, chain !! i = Some b /\ timestamp b = fst top /\ operation b = snd top.
Proof.
  split.
  - intros now op chain. exists (next_block now op chain).
    rewrite create_block_eq. repeat split.
    rewrite lookup_app_r by lia. rewrite Nat.sub_diag. reflexivity.
  - destruct (append_all_appended ops) as [chain [Hc [Hl Hv Hb]]].
    exists chain. repeat split; try assumption.
    intros i top Hi.
    destruct (lookup_lt_is_Some_2 chain i) as [b Hcb].
    { rewrite Hl. apply lookup_lt_is_Some. eauto. }
    exists b. split; [exact Hcb|].
    destruct (Hb i b Hcb) as [_ [_ [t [Ht Hto]]]].
    rewrite Hi in Ht. injection Ht as <-. exact Hto.
Qed.

(** C4 fails on the first block of a chain: it has no [sequence_index]
    key. *)
Lemma block_has_no_sequence_index :
  exists b chain,
    create_block (lit "1700000000.5")
                 (trade_operation "BUY" (lit "0.001") (lit "650000.0")) []
    = Ok (b, chain) /\
    dict_get "sequence_index" (block_dict b) = None.
Proof. eexists. eexists. split; [vm_compute; reflexivity|reflexivity]. Qed.

(** * Operations with a NaN or an infinity *)

Lemma str_append_assoc (a b c : string) : (a +:+ b) +:+ c = a +:+ (b +:+ c).
Proof.
  induction a as [|x a IH]; [reflexivity|].
  change (String x ((a +:+ b) +:+ c) = String x (a +:+ (b +:+ c))). rewrite IH. reflexivity.
Qed.

Lemma str_append_nil_r (a : string) : a +:+ "" = a.
Proof.
  induction a as [|x a IH]; [reflexivity|].
  change (String x (a +:+ "") = String x a). rewrite IH. reflexivity.
Qed.

Lemma is_prefix_append (x b : string) : is_prefix x (x +:+ b) = true.
Proof.
  induction x as [|c x IH]; [reflexivity|].
  change (Ascii.eqb c c && is_prefix x (x +:+ b) = true).
  rewrite Ascii.eqb_refl, IH. reflexivity.
Qed.

Lemma is_substring_head (p s : string) : is_prefix p s = true -> is_substring p s = true.
Proof. intros H. destruct s; cbn [is_substring]; rewrite H; reflexivity. Qed.

(** A text has the parts it is put together from. *)
Lemma is_substring_append (a x b : string) : is_substring x (a +:+ x +:+ b) = true.
Proof.
  induction a as [|c a IH].
  - change (is_substring x (x +:+ b) = true). apply is_substring_head, is_prefix_append.
  - change (is_prefix x (String c (a +:+ x +:+ b)) || is_substring x (a +:+ x +:+ b) = true).
    rewrite IH. apply orb_true_r.
Qed.

Lemma join_has_item (sep x : string) (l : list string) :
  In x l -> exists a b, Json.join sep l = a +:+ x +:+ b.
Proof.
  induction l as [|y l IH]; intros Hin; [destruct Hin|].
  destruct l as [|z l].
  - destruct Hin as [->|[]]. exists "", "". cbn [Json.join].
    rewrite str_append_nil_r. reflexivity.
  - change (Json.join sep (y :: z :: l)) with (y +:+ sep +:+ Json.join sep (z :: l)).
    destruct Hin as [->|Hin].
    + exists "", (sep +:+ Json.join sep (z :: l)). reflexivity.
    + destruct (IH Hin) as (a & b & ->). exists (y +:+ sep +:+ a), b.
      rewrite !str_append_assoc. reflexivity.
Qed.

Lemma insert_item_has (x y : string * string) (l : list (string * string)) :
  x = y \/ In x l -> In x (Json.insert_item y l).
Proof.
  induction l as [|z l IH]; cbn [Json.insert_item]; intros H.
  - destruct H as [->|[]]. left. reflexivity.
  - destruct (String.ltb (fst y) (fst z)).
    + destruct H as [->|H]; [left; reflexivity|right; exact H].
    + destruct H as [->|[->|H]].
      * right. apply IH. left. reflexivity.
      * left. reflexivity.
      * right. apply IH. right. exact H.
Qed.

(** Sorting the items loses none. *)
Lemma sort_items_has (x : string * string) (l : list (string * string)) :
  In x l -> In x (Json.sort_items l).
Proof.
  unfold Json.sort_items.
  assert (H : forall acc, In x l \/ In x acc ->
                In x (fold_left (fun acc y => Json.insert_item y acc) l acc)).
  { induction l as [|y l IH]; intros acc Hin; cbn [fold_left].
    - destruct Hin as [[]|Hin]. exact Hin.
    - apply IH. destruct Hin as [[->|Hin]|Hin].
      + right. apply insert_item_has. left. reflexivity.
      + left. exact Hin.
      + right. apply insert_item_has. right. exact Hin. }
  intros Hin. apply H. left. exact Hin.
Qed.

(** The text of a dict has the text of each of its items. *)
Lemma encode_has_item (k : string) (v : pyval) (d : pydict) :
  In (k, v) d ->
  is_substring (Json.quote k +:+ ": " +:+ Json.encode true v)
               (Json.encode true (PDict d)) = true.
Proof.
  intros Hin. cbn [Json.encode].
  set (items := map (fun kv => (fst kv, Json.encode true (snd kv))) d).
  set (fmt := fun kv : string * string => Json.quote (fst kv) +:+ ": " +:+ snd kv).
  assert (H : In (fmt (k, Json.encode true v)) (map fmt (Json.sort_items items))).
  { apply in_map, sort_items_has.
    apply (in_map (fun kv => (fst kv, Json.encode true (snd kv))) d (k, v) Hin). }
  set (x := fmt (k, Json.encode true v)) in *.
  destruct (join_has_item ", " x _ H) as (a & b & ->).
  change (is_substring x ("{" +:+ (a +:+ x +:+ b) +:+ "}") = true). clearbody x.
  rewrite !str_append_assoc, <- (str_append_assoc "{" a).
  apply is_substring_append.
Qed.

Lemma nonfinite_tokens (f : float) :
  Float.is_finite f = false ->
  Json.encode true (PFloat f) = "NaN" \/
  Json.encode true (PFloat f) = "Infinity" \/
  Json.encode true (PFloat f) = "-Infinity".
Proof. destruct f as [|[]| |]; try discriminate; cbn; auto. Qed.

(** The strict mode of the library, which the program does not ask for. *)
Lemma dumps_strict_rejects (v : pyval) (sort_keys : bool) :
  Json.has_nonfinite v = true -> Json.dumps v sort_keys false = Raise ValueError.
Proof. intros H. unfold Json.dumps. rewrite H. reflexivity. Qed.

(** C5, as the code has it: for an operation whose values are strings and
    floats, one of them a NaN or an infinity under the key [k],
    [create_block] returns and appends one block; the text [json.dumps]
    gives with its default [allow_nan=True] has the item of [k] with the
    value written as the bare token [NaN], [Infinity] or [-Infinity]; the
    hash of the block is taken over that text; and [json.dumps] with
    [allow_nan=False], which the program does not ask for, would have
    raised. *)
Theorem nonfinite_operation_appended (now : float) (fields : list (string * field))
    (chain : list block) (k : string) (f : float) :
  In (k, FFloat f) fields ->
  Float.is_finite f = false ->
  let op := operation_of fields in
  let text := Json.encode true (PDict op) in
  exists b,
    create_block now op chain = Ok (b, chain ++ [b]) /\
    operation b = op /\
    In (Json.floatstr f) ["NaN"; "Infinity"; "-Infinity"] /\
    is_substring (Json.quote k +:+ ": " +:+ Json.floatstr f) text = true /\
    hash b = SHA256.hexdigest (prev_hash b +:+ text) /\
    Json.dumps (PDict op) true false = Raise ValueError.
Proof.
  intros Hin Hf op text.
  assert (Hop : In (k, PFloat f) op).
  { apply (in_map (fun kv => (fst kv, field_value (snd kv))) fields (k, FFloat f) Hin). }
  exists (next_block now op chain). rewrite create_block_eq.
  split; [reflexivity|]. split; [reflexivity|]. split; [|split; [|split]].
  - destruct (nonfinite_tokens f Hf) as [H|[H|H]]; cbn [Json.encode] in H; rewrite H;
      cbn; auto.
  - apply (encode_has_item k (PFloat f) op Hop).
  - reflexivity.
  - apply dumps_strict_rejects. cbn [Json.has_nonfinite]. apply existsb_exists.
    exists (k, PFloat f). split; [exact Hop|]. cbn [snd Json.has_nonfinite].
    rewrite Hf. reflexivity.
Qed.

(** [nonfinite_operation_appended] on the operation of a BUY whose quantity
    is a NaN. *)
Lemma nonfinite_operation_appended_witness :
  let fields := [ ("side", FStr "BUY"); ("asset", FStr "BTC");
                  ("quantity", FFloat Float.nan); ("price", FFloat (lit "650000.0")) ] in
  let text := Json.encode true (PDict nan_operation) in
  In ("quantity", FFloat Float.nan) fields /\
  Float.is_finite Float.nan = false /\
  operation_of fields = nan_operation /\
  exists b,
    create_block (lit "1700000000.5") nan_operation [] = Ok (b, [] ++ [b]) /\
    operation b = nan_operation /\
    In (Json.floatstr Float.nan) ["NaN"; "Infinity"; "-Infinity"] /\
    is_substring (Json.quote "quantity" +:+ ": " +:+ Json.floatstr Float.nan) text = true /\
    hash b = SHA256.hexdigest (prev_hash b +:+ text) /\
    Json.dumps (PDict nan_operation) true false = Raise ValueError.
Proof.
  intros fields text.
  assert (Hin : In ("quantity", FFloat Float.nan) fields).
  { right. right. left. reflexivity. }
  assert (Hf : Float.is_finite Float.nan = false) by reflexivity.
  split; [exact Hin|]. split; [exact Hf|]. split; [reflexivity|].
  exact (nonfinite_operation_appended (lit "1700000000.5") fields [] "quantity" Float.nan
           Hin Hf).
Defined.

(** C5 fails on an operation whose quantity is a NaN: [create_block]
    returns, the chain has the block, and the hash is the one of the text
    with the bare token [NaN]. *)
Lemma nan_operation_is_appended :
  Json.has_nonfinite (PDict nan_operation) = true /\
  exists b,
    create_block (lit "1700000000.5") nan_operation [] = Ok (b, [b]) /\
    hash b = "588cb2c0e49e562ab522442c044d62abe8b249c97c78c4f6d70488c4b6042e4e".
Proof.
  split; [reflexivity|]. eexists. split; [vm_compute; reflexivity|reflexivity].
Qed.

(** The text the hash of that block is taken over. *)
Example nan_operation_text :
  Json.dumps (PDict nan_operation) true true
  = Ok ("{" +:+ Json.quote "asset" +:+ ": " +:+ Json.quote "BTC" +:+ ", "
            +:+ Json.quote "price" +:+ ": 650000.0, "
            +:+ Json.quote "quantity" +:+ ": NaN, "
            +:+ Json.quote "side" +:+ ": " +:+ Json.quote "BUY" +:+ "}").
Proof. vm_compute. reflexivity. Qed.

(** * The manual order handler *)

Lemma missing_field_is_400 (upper : string -> string) (e : env) (d : pydict) (st : state) :
  dict_get "side" d = None \/ dict_get "quantity" d = None ->
  api_ordem upper e (PDict d) st = (Response 400 (ErroBody ErroMissing), st).
Proof.
  intros H. unfold api_ordem, fields_missing. cbn [truthy py_contains].
  destruct d as [|kv d]; [reflexivity|]. cbn [negb bind].
  destruct (dict_get "side" (kv :: d)); cbn [negb].
  - destruct H as [H|H]; [discriminate|]. rewrite H. reflexivity.
  - reflexivity.
Qed.

Lemma empty_body_is_400 (upper : string -> string) (e : env) (data : pyval) (st : state) :
  truthy data = false ->
  api_ordem upper e data st = (Response 400 (ErroBody ErroMissing), st).
Proof. intros H. unfold api_ordem, fields_missing. rewrite H. reflexivity. Qed.

Lemma failed_submission_is_500 (upper : string -> string) (e : env) (d : pydict) (st : state)
    (s : string) (q : pyval) (qty : float) (ex : exn) :
  dict_get "side" d = Some (PStr s) ->
  dict_get "quantity" d = Some q ->
  py_float q = Ok qty ->
  place_order e "BTCBRL" (upper s) qty = Raise ex ->
  api_ordem upper e (PDict d) st = (Response 500 (ErroBody (ErroExn ex)), st).
Proof.
  intros Hs Hq Hf Hp. unfold api_ordem, fields_missing. cbn [truthy py_contains py_getitem].
  destruct d as [|kv d]; [discriminate|]. cbn [negb bind].
  rewrite Hs, Hq. cbn [negb bind py_upper]. rewrite Hf. cbn [bind].
  unfold ordem_try. rewrite Hp. reflexivity.
Qed.

(** C6: on the body [{"side": "BUY", "quantity": "abc"}] the conversion
    [float("abc")] raises [ValueError] before the [try] is entered: the
    exception leaves the handler, which answers neither 400 nor a JSON
    error, and the state is unchanged. *)
Theorem invalid_quantity_escapes_handler (upper : string -> string) (e : env) (st : state) :
  api_ordem upper e bad_quantity st = (Unhandled ValueError, st).
Proof. reflexivity. Qed.

(** A [side] that is not a string has no [upper]; a body that is a number
    cannot be searched. *)
Lemma invalid_side_escapes_handler (upper : string -> string) (e : env) (st : state) :
  api_ordem upper e (PDict [("side", PInt 1); ("quantity", PFloat Float.one)]) st
  = (Unhandled AttributeError, st).
Proof. reflexivity. Qed.

Lemma number_body_escapes_handler (upper : string -> string) (e : env) (st : state) :
  api_ordem upper e (PInt 5) st = (Unhandled TypeError, st).
Proof. reflexivity. Qed.

(** * Negative amounts *)

(** What the on-chain loop stores for an address: nothing new when every
    request for it fails, the balance of its last successful request
    otherwise. The requests of [onchain_loop e k addrs] are numbered from
    [k]. *)
Lemma onchain_loop_skip (e : env) (addr : string) (addrs : list string) :
  forall k st,
    (forall i, addrs !! i = Some addr ->
       exists ex, get_btc_onchain_balance (explorer e (k + i)) addr = Raise ex) ->
    prev_onchain_btc (onchain_loop e k addrs st) !! addr = prev_onchain_btc st !! addr.
Proof.
  induction addrs as [|a addrs IH]; intros k st H; [reflexivity|].
  assert (H' : forall i, addrs !! i = Some addr ->
                 exists ex, get_btc_onchain_balance (explorer e (S k + i)) addr = Raise ex).
  { intros i Hi. destruct (H (S i) Hi) as [ex Hex].
    exists ex. rewrite <- Hex. f_equal. f_equal. lia. }
  cbn [onchain_loop].
  destruct (get_btc_onchain_balance (explorer e k) a) as [bal|ex] eqn:Ha.
  - rewrite (IH (S k) _ H'). cbn [logging set_onchain prev_onchain_btc].
    apply lookup_insert_ne. intros ->. destruct (H 0%nat eq_refl) as [ex Hex].
    rewrite Nat.add_0_r in Hex. congruence.
  - rewrite (IH (S k) _ H'). reflexivity.
Qed.

Lemma onchain_loop_unlisted (e : env) (addr : string) (addrs : list string) (k : nat)
    (st : state) :
  addr ∉ addrs ->
  prev_onchain_btc (onchain_loop e k addrs st) !! addr = prev_onchain_btc st !! addr.
Proof.
  intros Hn. apply onchain_loop_skip. intros i Hi. exfalso. apply Hn.
  apply (list_elem_of_lookup_2 _ i), Hi.
Qed.

Lemma onchain_loop_last (e : env) (addr : string) (bal : float) (addrs : list string) :
  forall k i st,
    addrs !! i = Some addr ->
    get_btc_onchain_balance (explorer e (k + i)) addr = Ok bal ->
    (forall j, (i < j)%nat -> addrs !! j = Some addr ->
       exists ex, get_btc_onchain_balance (explorer e (k + j)) addr = Raise ex) ->
    prev_onchain_btc (onchain_loop e k addrs st) !! addr = Some bal.
Proof.
  induction addrs as [|a addrs IH]; intros k i st Hi Hb Hl.
  - rewrite lookup_nil in Hi. discriminate.
  - destruct i as [|i].
    + injection Hi as ->. rewrite Nat.add_0_r in Hb. cbn [onchain_loop]. rewrite Hb.
      rewrite onchain_loop_skip.
      * cbn [logging set_onchain prev_onchain_btc]. apply lookup_insert_eq.
      * intros j Hj. destruct (Hl (S j) (Nat.lt_0_succ j) Hj) as [ex Hex].
        exists ex. rewrite <- Hex. f_equal. f_equal. lia.
    + assert (Hb' : get_btc_onchain_balance (explorer e (S k + i)) addr = Ok bal).
      { rewrite <- Hb. f_equal. f_equal. lia. }
      assert (Hl' : forall j, (i < j)%nat -> addrs !! j = Some addr ->
                      exists ex,
                        get_btc_onchain_balance (explorer e (S k + j)) addr = Raise ex).
      { intros j Hij Hj. destruct (Hl (S j) (proj1 (Nat.succ_lt_mono i j) Hij) Hj)
          as [ex Hex].
        exists ex. rewrite <- Hex. f_equal. f_equal. lia. }
      cbn [onchain_loop].
      destruct (get_btc_onchain_balance (explorer e k) a); exact (IH (S k) i _ Hi Hb' Hl').
Qed.

(** One record per listed address, in the order of the list. *)
Lemma onchain_loop_records (e : env) (addrs : list string) :
  forall k st, exists recs,
    log (onchain_loop e k addrs st) = log st ++ recs /\
    length recs = length addrs /\
    forall i addr, addrs !! i = Some addr -> onchain_record e (k + i) addr (recs !! i).
Proof.
  induction addrs as [|a addrs IH]; intros k st.
  - exists []. rewrite app_nil_r. repeat split. intros i addr Hi.
    rewrite lookup_nil in Hi. discriminate.
  - cbn [onchain_loop].
    destruct (get_btc_onchain_balance (explorer e k) a) as [bal|ex] eqn:Ha;
      match goal with
      | |- context [onchain_loop e (S k) addrs ?s] =>
          destruct (IH (S k) s) as (recs & Hlog & Hlen & Hrec)
      end;
      match type of Hlog with
      | context [log (logging ?r _)] => exists (r :: recs)
      end;
      (split; [rewrite Hlog; cbn [logging set_onchain log]; rewrite <- app_assoc;
               reflexivity|]);
      (split; [cbn [length]; rewrite Hlen; reflexivity|]);
      intros [|i] addr Hi.
    + injection Hi as <-. unfold onchain_record. rewrite Nat.add_0_r, Ha. eauto.
    + replace (k + S i)%nat with (S k + i)%nat by lia. exact (Hrec i addr Hi).
    + injection Hi as <-. unfold onchain_record. rewrite Nat.add_0_r, Ha. reflexivity.
    + replace (k + S i)%nat with (S k + i)%nat by lia. exact (Hrec i addr Hi).
Qed.

(** An entry with a negative total is passed over, wherever it stands. *)
Lemma nonzero_loop_negative (bs1 : list pyval) (b : pyval) (bs2 : list pyval) (t : float) :
  entry_total b = Ok t -> Float.ltb t Float.zero = true ->
  forall out, nonzero_loop (bs1 ++ b :: bs2) out = nonzero_loop (bs1 ++ bs2) out.
Proof.
  intros Ht Hneg. induction bs1 as [|b1 bs1 IH]; intros out.
  - cbn [app nonzero_loop]. rewrite Ht. cbn [bind].
    rewrite (ltb_swap_false _ _ Hneg). reflexivity.
  - cbn [app nonzero_loop]. destruct (entry_total b1) as [t1|ex]; cbn [bind]; [|reflexivity].
    destruct (Float.ltb Float.zero t1); [|apply IH].
    destruct (py_getitem b1 "asset") as [k|ex]; cbn [bind]; [|reflexivity].
    destruct (hashable k); [apply IH|reflexivity].
Qed.

(** A pass reads the account only through [get_nonzero_balances]. *)
Lemma spot_loop_with_account (a : pyval) (e : env) (items : list (pyval * float)) :
  forall st, spot_loop (with_account a e) items st = spot_loop e items st.
Proof.
  induction items as [|[k v] items IH]; intros st; [reflexivity|].
  destruct k; cbn [spot_loop with_account ticker]; try reflexivity. apply IH.
Qed.

Lemma onchain_loop_with_account (a : pyval) (e : env) (addrs : list string) :
  forall k st, onchain_loop (with_account a e) k addrs st = onchain_loop e k addrs st.
Proof.
  induction addrs as [|addr addrs IH]; intros k st; [reflexivity|].
  cbn [onchain_loop with_account explorer].
  destruct (get_btc_onchain_balance (explorer e k) addr); apply IH.
Qed.

Lemma monitor_cycle_same_balances (a a' : pyval) (e : env) (st : state) :
  get_nonzero_balances a = get_nonzero_balances a' ->
  monitor_cycle (with_account a e) st = monitor_cycle (with_account a' e) st.
Proof.
  intros H. unfold monitor_cycle, cycle_body. cbn [with_account spot_account bind].
  rewrite H. destruct (get_nonzero_balances a') as [nonzero|ex]; [|reflexivity].
  rewrite !spot_loop_with_account.
  destruct (spot_loop e nonzero st) as [st1 [[]|ex]]; [|reflexivity].
  rewrite !onchain_loop_with_account. reflexivity.
Qed.

(** C7, as the code has it. A spot entry whose total is negative is passed
    over by [get_nonzero_balances] wherever it stands in the answer, and the
    pass ends in the very state, log included, it would end in had the
    entry not been in the answer: nothing is raised, nothing is logged for
    it, nothing is stored for it. An asset the fetch gives no total above
    zero keeps its stored balance through the pass. An on-chain balance the
    explorer reports is stored for its address whatever its sign (unless a
    later request for the same address succeeds too), and the record written
    for it is the info record of line 188, not an error record. *)
Theorem negative_amounts_unchecked (e : env) (st : state) :
  (forall bs1 b bs2 out t,
      entry_total b = Ok t -> Float.ltb t Float.zero = true ->
      nonzero_loop (bs1 ++ b :: bs2) out = nonzero_loop (bs1 ++ bs2) out) /\
  (forall d d' bs1 b bs2 t,
      entry_total b = Ok t -> Float.ltb t Float.zero = true ->
      dict_get "balances" d = Some (PList (bs1 ++ b :: bs2)) ->
      dict_get "balances" d' = Some (PList (bs1 ++ bs2)) ->
      monitor_cycle (with_account (PDict d) e) st
      = monitor_cycle (with_account (PDict d') e) st) /\
  (forall asset,
      (forall acct, spot_account e = Ok acct -> fetched_positive acct asset = false) ->
      prev_balances (monitor_cycle e st) !! asset = prev_balances st !! asset) /\
  (forall addrs i addr bal,
      addrs !! i = Some addr ->
      get_btc_onchain_balance (explorer e i) addr = Ok bal ->
      (forall j, (i < j)%nat -> addrs !! j = Some addr ->
         exists ex, get_btc_onchain_balance (explorer e j) addr = Raise ex) ->
      let st' := onchain_loop e 0 addrs st in
      prev_onchain_btc st' !! addr = Some bal /\
      exists recs delta,
        log st' = log st ++ recs /\
        recs !! i = Some (LogOnchain addr bal delta) /\
        is_error_record (LogOnchain addr bal delta) = false).
Proof.
  split; [|split; [|split]].
  - intros bs1 b bs2 out t Ht Hneg. apply (nonzero_loop_negative bs1 b bs2 t Ht Hneg).
  - intros d d' bs1 b bs2 t Ht Hneg Hd Hd'. apply monitor_cycle_same_balances.
    unfold get_nonzero_balances. cbn [py_get bind]. rewrite Hd, Hd'. cbn [py_iter bind].
    apply (nonzero_loop_negative bs1 b bs2 t Ht Hneg).
  - apply (proj1 (proj2 (monitor_cycle_balances e st))).
  - intros addrs i addr bal Hi Hb Hl. cbv zeta. split.
    + apply (onchain_loop_last e addr bal addrs 0 i st Hi Hb Hl).
    + destruct (onchain_loop_records e addrs 0 st) as (recs & Hlog & _ & Hrec).
      specialize (Hrec i addr Hi). unfold onchain_record in Hrec. cbn [Nat.add] in Hrec.
      rewrite Hb in Hrec. destruct Hrec as [delta Hrec].
      exists recs, delta. repeat split; assumption.
Qed.

(** C7 fails on that second pass: the negative on-chain amount replaces the
    stored one, and no error record is logged, neither for it nor for the
    negative spot total, which is dropped. *)
Lemma negative_onchain_amount_stored :
  let st := run ascii_upper [wallet] [Cycle pass_one] in
  let st' := monitor_cycle pass_negative st in
  prev_onchain_btc st !! wallet = Some (lit "1.5") /\
  get_btc_onchain_balance (explorer pass_negative 0) wallet = Ok (lit "-5e-08") /\
  Float.ltb (lit "-5e-08") Float.zero = true /\
  prev_onchain_btc st' !! wallet = Some (lit "-5e-08") /\
  prev_balances st' !! "BRL" = Some (lit "50") /\
  existsb is_error_record (log st') = false.
Proof. vm_compute. repeat split. Qed.

(** [negative_amounts_unchecked] on that second pass: the negative spot
    total leaves the 50 BRL of the first pass, and the pass is the one of an
    answer without the entry; the negative on-chain amount is stored and
    written to the log as an info record. *)
Lemma negative_amounts_unchecked_witness :
  let st := run ascii_upper [wallet] [Cycle pass_one] in
  let st' := onchain_loop pass_negative 0 [wallet] st in
  prev_balances (monitor_cycle pass_negative st) !! "BRL" = prev_balances st !! "BRL" /\
  monitor_cycle
    (with_account (account_answer [("BRL", ("-1.00000000", "0.00000000"))]) pass_negative) st
  = monitor_cycle (with_account (account_answer []) pass_negative) st /\
  prev_onchain_btc st' !! wallet = Some (lit "-5e-08") /\
  exists recs delta,
    log st' = log st ++ recs /\
    recs !! 0%nat = Some (LogOnchain wallet (lit "-5e-08") delta) /\
    is_error_record (LogOnchain wallet (lit "-5e-08") delta) = false.
Proof.
  intros st st'.
  destruct (negative_amounts_unchecked pass_negative st) as (_ & Hpass & Hspot & Hchain).
  split; [|split].
  - apply Hspot. intros acct [= <-]. vm_compute. reflexivity.
  - apply (Hpass
             [ ("makerCommission", PInt 15);
               ("balances",
                PList [ PDict [ ("asset", PStr "BRL"); ("free", PStr "-1.00000000");
                                ("locked", PStr "0.00000000") ] ]) ]
             [ ("makerCommission", PInt 15); ("balances", PList []) ]
             []
             (PDict [ ("asset", PStr "BRL"); ("free", PStr "-1.00000000");
                      ("locked", PStr "0.00000000") ])
             [] (lit "-1")).
    + vm_compute. reflexivity.
    + vm_compute. reflexivity.
    + reflexivity.
    + reflexivity.
  - apply (Hchain [wallet] 0%nat wallet (lit "-5e-08")).
    + reflexivity.
    + vm_compute. reflexivity.
    + intros j Hj Hl. destruct j; [lia|]. discriminate Hl.
Defined.

(** * A balance that is no longer reported *)

(** [stale_balance_kept] on these two passes. *)
Lemma stale_balance_kept_witness :
  let st := run ascii_upper [wallet] [Cycle pass_one] in
  let st' := monitor_cycle pass_empty st in
  prev_balances st !! "BRL" = Some (lit "50") /\
  (forall acct, spot_account pass_empty = Ok acct -> fetched_positive acct "BRL" = false) /\
  prev_balances st' !! "BRL" = Some (lit "50") /\
  Float.ltb Float.zero (lit "50") = true /\
  (exists onchain spot,
      api_saldo st' = Response 200 (SaldoBody spot onchain) /\
      spot !! "BRL" = Some (lit "50")) /\
  balance_of (prev_balances st') "BRL" = lit "50".
Proof.
  intros st st'.
  assert (H1 : prev_balances st !! "BRL" = Some (lit "50")) by (vm_compute; reflexivity).
  assert (H2 : forall acct, spot_account pass_empty = Ok acct ->
                 fetched_positive acct "BRL" = false).
  { intros acct [= <-]. vm_compute. reflexivity. }
  split; [exact H1|]. split; [exact H2|].
  exact (stale_balance_kept ascii_upper [wallet] [Cycle pass_one] pass_empty "BRL"
           (lit "50") H1 H2).
Defined.

(** With the stale 50 BRL the pass buys, and the chain records it. *)
Example stale_balance_is_traded :
  map operation (blockchain (run ascii_upper [wallet] [Cycle pass_one; Cycle pass_empty]))
  = [trade_operation "BUY" (Float.div (lit "50") (lit "99999")) (lit "99999")].
Proof. vm_compute. reflexivity. Qed.

(** * The same operation twice *)

(** The second block links to the first, and the two hashes are equal only
    if SHA-256 maps the two texts, which differ in their first 64
    characters unless the first hash is the genesis constant, to one
    digest. *)
Lemma same_operation_twice (now1 now2 : float) (op : pydict) :
  let d := Json.encode true (PDict op) in
  let h1 := SHA256.hexdigest (GENESIS +:+ d) in
  exists b1 b2,
    append_all [(now1, op); (now2, op)] = Ok [b1; b2] /\
    prev_hash b1 = GENESIS /\ hash b1 = h1 /\
    prev_hash b2 = h1 /\ hash b2 = SHA256.hexdigest (h1 +:+ d).
Proof. intros d h1. eexists. eexists. repeat split. Qed.

(** * The format of digests and signatures *)

Lemma hex_digit_char (d : Z) : 0 <= d < 16 -> hex_char (SHA256.hex_digit d) = true.
Proof.
  intros H.
  assert (Hd : In d (map Z.of_nat (seq 0 16))).
  { apply in_map_iff. exists (Z.to_nat d). split; [lia|]. apply in_seq. lia. }
  cbn in Hd. repeat (destruct Hd as [<-|Hd]; [reflexivity|]). contradiction.
Qed.

Lemma chars_append (a b : string) :
  list_ascii_of_string (a +:+ b) = list_ascii_of_string a ++ list_ascii_of_string b.
Proof. induction a as [|c a IH]; [reflexivity|]. simpl. f_equal. exact IH. Qed.

Lemma length_chars (s : string) : String.length s = length (list_ascii_of_string s).
Proof. induction s as [|c s IH]; [reflexivity|]. simpl. f_equal. exact IH. Qed.

Lemma hex_word_chars (w : Z) :
  length (list_ascii_of_string (SHA256.hex_word w)) = 8%nat /\
  forallb hex_char (list_ascii_of_string (SHA256.hex_word w)) = true.
Proof.
  unfold SHA256.hex_word. rewrite list_ascii_of_string_of_list_ascii.
  split; [reflexivity|]. apply forallb_forall. intros c Hc.
  apply in_map_iff in Hc as [i [<- _]]. apply hex_digit_char.
  apply Z.mod_pos_bound. lia.
Qed.

(** The hex text of [n] words has [8 * n] characters of [0-9a-f]. *)
Lemma hex_words_chars (ws : list Z) :
  let s := fold_right (fun w acc => SHA256.hex_word w +:+ acc) EmptyString ws in
  length (list_ascii_of_string s) = (8 * length ws)%nat /\
  forallb hex_char (list_ascii_of_string s) = true.
Proof.
  induction ws as [|w ws [IHl IHf]]; [split; reflexivity|].
  cbn [fold_right]. cbv zeta. rewrite chars_append, length_app, forallb_app.
  destruct (hex_word_chars w) as [Hl Hf]. rewrite Hl, Hf, IHl, IHf.
  cbn [length]. split; [lia|reflexivity].
Qed.

Lemma compress_length (h block : list Z) :
  length h = 8%nat -> length (SHA256.compress h block) = 8%nat.
Proof.
  intros Hh. unfold SHA256.compress. rewrite length_map, length_combine, Hh. reflexivity.
Qed.

Lemma blocks_length (n : nat) :
  forall bs h, length h = 8%nat -> length (SHA256.blocks n bs h) = 8%nat.
Proof.
  induction n as [|n IH]; intros bs h Hh; cbn [SHA256.blocks]; [exact Hh|].
  apply IH, compress_length, Hh.
Qed.

Lemma sha256_length (msg : list Z) : length (SHA256.sha256 msg) = 8%nat.
Proof. unfold SHA256.sha256. apply blocks_length. reflexivity. Qed.

Lemma words_hex_digest (ws : list Z) :
  length ws = 8%nat ->
  is_hex_digest (fold_right (fun w acc => SHA256.hex_word w +:+ acc) EmptyString ws) = true.
Proof.
  intros Hl. unfold is_hex_digest. destruct (hex_words_chars ws) as [H1 H2].
  cbv zeta in H1, H2. rewrite length_chars, H1, H2, Hl. reflexivity.
Qed.

Lemma hexdigest_is_hex_digest (s : string) : is_hex_digest (SHA256.hexdigest s) = true.
Proof. apply words_hex_digest, sha256_length. Qed.

(** [sign] on known inputs, a key longer than a block among them. *)
Example sign_known :
  [ sign "timestamp=1700000000000" "secret";
    sign "symbol=BTCBRL&side=BUY" (str_mul "k" 100);
    sign "" "" ]
  = [ "d615d05216c634afd48df5e1fc52c0d95b77892f19502e1b619f391bc9d68205";
      "283df62d54c93215d9853952719f1e79a38d5e54bc8a932f7db14d67e3989951";
      "b613679a0814d9ec772f95d778c35fc5ff1697c493715653c6c712144292c5ad" ].
Proof. vm_compute. reflexivity. Qed.

(** X1: [sign] returns 64 characters of [0-9a-f], whatever the query string
    and the secret are. *)
Theorem sign_is_hex_digest (query_string secret : string) :
  is_hex_digest (sign query_string secret) = true.
Proof. apply words_hex_digest, sha256_length. Qed.

Lemma genesis_is_hex_digest : is_hex_digest GENESIS = true.
Proof. vm_compute. reflexivity. Qed.

(** * The chain of the running system *)

Lemma tip_is_hex_digest (chain : list block) :
  sound_chain chain -> is_hex_digest (tip chain) = true.
Proof.
  intros Hs. unfold tip. destruct (last chain) as [b|] eqn:Hl.
  - rewrite last_lookup in Hl. apply (Hs _ _ Hl).
  - apply genesis_is_hex_digest.
Qed.

Lemma sound_chain_nil : sound_chain [].
Proof. intros i b H. rewrite lookup_nil in H. discriminate. Qed.

Lemma sound_chain_snoc (chain : list block) now sd q p :
  sound_chain chain ->
  sound_chain (chain ++ [next_block now (trade_operation sd q p) chain]).
Proof.
  intros Hs i b Hi. destruct (decide (i < length chain)%nat) as [Hlt|Hge].
  - rewrite lookup_app_l in Hi by exact Hlt.
    destruct (Hs i b Hi) as [H1 H2 H3 H4 H5].
    split; try assumption. apply linked_app, H2.
  - rewrite lookup_app_r in Hi by lia.
    destruct (i - length chain)%nat as [|n] eqn:Hn; [|destruct n; discriminate].
    assert (i = length chain) as -> by lia. injection Hi as <-. split.
    + reflexivity.
    + apply (tip_linked chain). reflexivity.
    + apply hexdigest_is_hex_digest.
    + apply tip_is_hex_digest, Hs.
    + exists sd, q, p. reflexivity.
Qed.

Lemma grows_by_trade_sound (old new : list block) :
  grows_by_trade old new -> sound_chain old -> sound_chain new.
Proof.
  intros [->|[t [sd [q [p ->]]]]] Hs; [exact Hs|]. apply sound_chain_snoc, Hs.
Qed.

Lemma monitor_cycle_grows_by_trade (e : env) (st : state) :
  grows_by_trade (blockchain st) (blockchain (monitor_cycle e st)).
Proof.
  unfold monitor_cycle, cycle_body.
  destruct (let* acct := spot_account e in get_nonzero_balances acct) as [nonzero|ex];
    [|left; reflexivity].
  pose proof (spot_loop_frame e nonzero st) as [H1 _].
  destruct (spot_loop e nonzero st) as [st1 [[]|ex]]; cbn [fst] in H1;
    [|cbn [logging blockchain]; rewrite H1; left; reflexivity].
  pose proof (onchain_loop_frame e 0 (btc_addresses st1) st1) as [H2 _]. cbn zeta in H2.
  rewrite <- H1, <- H2. set (st2 := onchain_loop e 0 (btc_addresses st1) st1).
  assert (H : grows_by_trade (blockchain st2) (blockchain (fst (trade_step e st2)))).
  { rewrite trade_step_decide.
    destruct (decide_order _ _) as [[[sd q]|]|ex]; cbn [fst]; try (left; reflexivity).
    destruct (place_order e "BTCBRL" (side_str sd) q) as [order|ex] eqn:Hp.
    - rewrite (submit_and_record_ok _ _ _ _ _ _ Hp).
      cbn [logging with_blockchain blockchain]. right. eauto.
    - rewrite (submit_and_record_fail _ _ _ _ _ _ Hp). left. reflexivity. }
  destruct (trade_step e st2) as [st3 [[]|ex]]; exact H.
Qed.

Lemma api_ordem_grows_by_trade (upper : string -> string) (e : env) (data : pyval)
    (st : state) :
  grows_by_trade (blockchain st) (blockchain (snd (api_ordem upper e data st))).
Proof.
  ordem_cases data; try (left; reflexivity).
  unfold ordem_try. destruct (place_order e "BTCBRL" _ _); cbn [bind].
  - rewrite create_block_eq. cbn [bind snd with_blockchain blockchain]. right. eauto.
  - left. reflexivity.
Qed.

Lemma step_grows_by_trade (upper : string -> string) (st : state) (ev : event) :
  grows_by_trade (blockchain st) (blockchain (step upper st ev)).
Proof.
  destruct ev; cbn [step]; try (left; reflexivity).
  - apply monitor_cycle_grows_by_trade.
  - apply api_ordem_grows_by_trade.
Qed.

Lemma reachable_chain_sound (upper : string -> string) addresses (evs : list event) :
  sound_chain (blockchain (run upper addresses evs)).
Proof.
  induction evs as [|ev evs IH] using rev_ind; [apply sound_chain_nil|].
  rewrite run_snoc. exact (grows_by_trade_sound _ _ (step_grows_by_trade upper _ ev) IH).
Qed.

(** Two orders through the handler, one after the other. *)
Example two_orders_in_turn :
  let e := accepting (with_btc_price "650000.00" offline) in
  let evs := [PostOrdem e buy_request; PostOrdem e buy_request] in
  let chain := blockchain (run ascii_upper [] evs) in
  length chain = 2%nat /\ verify chain = true.
Proof. vm_compute. repeat split. Qed.

(** The same two orders, the calls of [create_block] overlapping: the chain
    no longer verifies. *)
Example overlapping_calls_break_the_chain :
  let op := trade_operation "BUY" (lit "0.001") (lit "650000.0") in
  match overlapping_calls (lit "1700000000.5") op (lit "1700000000.6") op [] with
  | Ok chain => length chain = 2%nat /\ map prev_hash chain = [GENESIS; GENESIS] /\
                verify chain = false
  | Raise _ => False
  end.
Proof. vm_compute. repeat split. Qed.

(** X2: as long as the calls of [create_block] do not overlap (passes and
    requests taken one at a time), in every state the system reaches the
    hash of each block is the SHA-256 of its [prev_hash] followed by its
    serialized operation, the first block links to the 64 zeros and every
    later block to the hash of the block before it. [create_block] is the
    reading and building of lines 59-67 followed by the append of line 68,
    with no lock: when two calls both read the last hash before either
    appends, the two blocks carry the same [prev_hash], and the chain then
    verifies only if that [prev_hash] is also the hash of the first of the
    two blocks. *)
Theorem reachable_chain_is_linked (upper : string -> string) (addresses : list string)
    (evs : list event) :
  let chain := blockchain (run upper addresses evs) in
  (forall i b, chain !! i = Some b ->
     hash b = SHA256.hexdigest (prev_hash b +:+ Json.encode true (PDict (operation b))) /\
     match i with
     | O => prev_hash b = str_mul "0" 64
     | S j => exists p, chain !! j = Some p /\ prev_hash b = hash p
     end) /\
  (forall now op,
     create_block now op chain
     = let* b := build_block now op chain in Ok (b, append_block b chain)) /\
  (forall now1 op1 now2 op2, exists b1 b2,
     overlapping_calls now1 op1 now2 op2 chain = Ok (chain ++ [b1; b2]) /\
     operation b1 = op1 /\ operation b2 = op2 /\
     prev_hash b2 = prev_hash b1 /\
     verify (chain ++ [b1; b2]) = String.eqb (prev_hash b2) (hash b1)).
Proof.
  cbv zeta. split; [|split].
  - intros i b H.
    destruct (reachable_chain_sound upper addresses evs i b H) as [H1 H2 _ _ _].
    split; [exact H1|exact H2].
  - reflexivity.
  - intros now1 op1 now2 op2.
    set (chain := blockchain (run upper addresses evs)).
    exists (next_block now1 op1 chain), (next_block now2 op2 chain).
    split; [|split; [|split; [|split]]]; try reflexivity.
    + unfold overlapping_calls, append_block. cbn [build_block bind Json.dumps negb andb].
      rewrite <- app_assoc. reflexivity.
    + change (chain ++ [next_block now1 op1 chain; next_block now2 op2 chain])
        with (chain ++ [next_block now1 op1 chain] ++ [next_block now2 op2 chain]).
      rewrite app_assoc. unfold verify. rewrite verify_from_snoc.
      fold (verify (chain ++ [next_block now1 op1 chain])).
      rewrite (verify_snoc_next now1 op1 chain (reachable_chain_verifies upper addresses evs)).
      rewrite last_snoc. cbn [next_block hash prev_hash operation].
      rewrite String.eqb_refl, andb_true_r. reflexivity.
Qed.

(** [reachable_chain_is_linked] on the second of two orders taken in turn. *)
Lemma reachable_chain_is_linked_witness :
  let e := accepting (with_btc_price "650000.00" offline) in
  let evs := [PostOrdem e buy_request; PostOrdem e buy_request] in
  let op := trade_operation "BUY" (lit "0.001") (lit "650000.00") in
  let b1 := next_block (now e) op [] in
  let b2 := next_block (now e) op [b1] in
  blockchain (run ascii_upper [] evs) !! 1%nat = Some b2 /\
  hash b2 = SHA256.hexdigest (prev_hash b2 +:+ Json.encode true (PDict (operation b2))) /\
  exists p, blockchain (run ascii_upper [] evs) !! 0%nat = Some p /\ prev_hash b2 = hash p.
Proof.
  intros e evs op b1 b2.
  assert (H : blockchain (run ascii_upper [] evs) !! 1%nat = Some b2).
  { vm_compute. reflexivity. }
  split; [exact H|].
  exact (proj1 (reachable_chain_is_linked ascii_upper [] evs) 1%nat b2 H).
Defined.

(** X3: in every reachable state the [hash] and the [prev_hash] of every
    block are 64 characters of [0-9a-f]. *)
Theorem reachable_hashes_are_digests (upper : string -> string) (addresses : list string)
    (evs : list event) :
  Forall (fun b => is_hex_digest (hash b) = true /\ is_hex_digest (prev_hash b) = true)
         (blockchain (run upper addresses evs)).
Proof.
  apply Forall_lookup. intros i b H.
  destruct (reachable_chain_sound upper addresses evs i b H) as [_ _ H3 H4 _]. auto.
Qed.

(** X4: every block of a reachable chain records a trade: its operation has
    the keys side, asset, quantity and price, in this order, the asset is
    BTC, the side is a string, the quantity and the price are floats. *)
Theorem reachable_operations_are_trades (upper : string -> string)
    (addresses : list string) (evs : list event) :
  Forall (fun b => map fst (operation b) = ["side"; "asset"; "quantity"; "price"] /\
                   dict_get "asset" (operation b) = Some (PStr "BTC") /\
                   exists sd q p, dict_get "side" (operation b) = Some (PStr sd) /\
                                  dict_get "quantity" (operation b) = Some (PFloat q) /\
                                  dict_get "price" (operation b) = Some (PFloat p))
         (blockchain (run upper addresses evs)).
Proof.
  apply Forall_lookup. intros i b H.
  destruct (reachable_chain_sound upper addresses evs i b H) as [_ _ _ _ [sd [q [p ->]]]].
  repeat split. exists sd, q, p. repeat split.
Qed.

(** * The order of the keys of an operation *)

Lemma ltb_not_leb (a b : string) : String.ltb a b = negb (String.leb b a).
Proof.
  unfold String.ltb, String.leb. rewrite (String.compare_antisym a b).
  destruct (String.compare b a); reflexivity.
Qed.

Lemma ltb_key_le (x y : string * string) :
  String.ltb (fst x) (fst y) = true -> key_le x y.
Proof.
  unfold key_le, String.le. rewrite ltb_not_leb. intros H.
  destruct (String.leb_total (fst x) (fst y)) as [->|H']; [exact I|].
  rewrite H' in H. discriminate.
Qed.

Lemma not_ltb_key_le (x y : string * string) :
  String.ltb (fst x) (fst y) = false -> key_le y x.
Proof.
  unfold key_le, String.le. rewrite ltb_not_leb. intros H.
  apply negb_false_iff in H. rewrite H. exact I.
Qed.

#[local] Instance key_le_trans : Transitive key_le.
Proof. intros x y z. unfold key_le. apply transitivity. Qed.

Lemma insert_item_perm (x : string * string) (l : list (string * string)) :
  Json.insert_item x l ≡ₚ x :: l.
Proof.
  induction l as [|y l IH]; cbn [Json.insert_item]; [reflexivity|].
  destruct (String.ltb (fst x) (fst y)); [reflexivity|].
  rewrite IH. apply perm_swap.
Qed.

Lemma insert_item_sorted (x : string * string) (l : list (string * string)) :
  StronglySorted key_le l -> StronglySorted key_le (Json.insert_item x l).
Proof.
  induction l as [|y l IH]; cbn [Json.insert_item]; intros Hs.
  - constructor; constructor.
  - apply StronglySorted_inv in Hs as [Hl Hy].
    destruct (String.ltb (fst x) (fst y)) eqn:Hxy.
    + constructor; [constructor; assumption|].
      constructor; [apply ltb_key_le, Hxy|].
      eapply Forall_impl; [exact Hy|]. intros z Hz.
      etrans; [apply ltb_key_le, Hxy|exact Hz].
    + constructor; [apply IH, Hl|].
      rewrite insert_item_perm. constructor; [apply not_ltb_key_le, Hxy|exact Hy].
Qed.

Lemma sort_fold_spec (l acc : list (string * string)) :
  StronglySorted key_le acc ->
  StronglySorted key_le (fold_left (fun a x => Json.insert_item x a) l acc) /\
  fold_left (fun a x => Json.insert_item x a) l acc ≡ₚ l ++ acc.
Proof.
  revert acc. induction l as [|x l IH]; intros acc Hs; cbn [fold_left app].
  - split; [exact Hs|reflexivity].
  - destruct (IH _ (insert_item_sorted x acc Hs)) as [H1 H2]. split; [exact H1|].
    rewrite H2, insert_item_perm. symmetry. apply Permutation_middle.
Qed.

Lemma sort_items_spec (l : list (string * string)) :
  StronglySorted key_le (Json.sort_items l) /\ Json.sort_items l ≡ₚ l.
Proof.
  destruct (sort_fold_spec l [] (SSorted_nil _)) as [H1 H2].
  rewrite app_nil_r in H2. split; assumption.
Qed.

Lemma same_key_same_item {A : Type} (l : list (string * A)) (x y : string * A) :
  NoDup (map fst l) -> x ∈ l -> y ∈ l -> fst x = fst y -> x = y.
Proof.
  induction l as [|z l IH]; intros Hn Hx Hy Hk; [inversion Hx|].
  cbn [map] in Hn. apply NoDup_cons in Hn as [Hz Hn].
  apply elem_of_cons in Hx as [->|Hx]; apply elem_of_cons in Hy as [->|Hy].
  - reflexivity.
  - exfalso. apply Hz. rewrite Hk. apply (list_elem_of_fmap_2 fst), Hy.
  - exfalso. apply Hz. rewrite <- Hk. apply (list_elem_of_fmap_2 fst), Hx.
  - apply IH; assumption.
Qed.

(** Sorting forgets the order the items came in, when no key repeats. *)
Lemma sort_items_perm (l1 l2 : list (string * string)) :
  NoDup (map fst l1) -> l1 ≡ₚ l2 -> Json.sort_items l1 = Json.sort_items l2.
Proof.
  intros Hn Hp.
  destruct (sort_items_spec l1) as [S1 P1]. destruct (sort_items_spec l2) as [S2 P2].
  apply (StronglySorted_unique_strong key_le); try assumption.
  - intros x1 x2 H1 H2 H12 H21. apply (same_key_same_item l1); try assumption.
    + rewrite <- P1. exact H1.
    + rewrite Hp, <- P2. exact H2.
    + apply (anti_symm String.le); assumption.
  - rewrite P1, P2. exact Hp.
Qed.

Lemma dumps_ignores_key_order (op1 op2 : pydict) :
  NoDup (map fst op1) -> op1 ≡ₚ op2 ->
  Json.encode true (PDict op1) = Json.encode true (PDict op2).
Proof.
  intros Hn Hp. cbn [Json.encode].
  rewrite (sort_items_perm (map (fun kv => (fst kv, Json.encode true (snd kv))) op1)
                           (map (fun kv => (fst kv, Json.encode true (snd kv))) op2)).
  - reflexivity.
  - rewrite map_map. cbn [fst]. exact Hn.
  - apply Permutation_map, Hp.
Qed.

(** X5: the hash of a block depends on the items of the operation and on the
    chain it is appended to, not on the order in which the keys of the
    operation were inserted, nor on the clock. *)
Theorem block_hash_ignores_key_order (now1 now2 : float) (op1 op2 : pydict)
    (chain : list block) :
  NoDup (map fst op1) -> op1 ≡ₚ op2 ->
  exists b1 b2,
    create_block now1 op1 chain = Ok (b1, chain ++ [b1]) /\
    create_block now2 op2 chain = Ok (b2, chain ++ [b2]) /\
    hash b1 = hash b2 /\ prev_hash b1 = prev_hash b2.
Proof.
  intros Hn Hp. exists (next_block now1 op1 chain), (next_block now2 op2 chain).
  rewrite !create_block_eq. repeat split.
  cbn [next_block hash]. rewrite (dumps_ignores_key_order op1 op2 Hn Hp). reflexivity.
Qed.

Lemma block_hash_ignores_key_order_witness :
  let op1 := trade_operation "BUY" (lit "0.001") (lit "650000.0") in
  let op2 := rev op1 in
  NoDup (map fst op1) /\ op1 ≡ₚ op2 /\
  exists b1 b2,
    create_block (lit "1700000000.5") op1 [] = Ok (b1, [] ++ [b1]) /\
    create_block (lit "1700000030.5") op2 [] = Ok (b2, [] ++ [b2]) /\
    hash b1 = hash b2 /\ prev_hash b1 = prev_hash b2.
Proof.
  intros op1 op2.
  assert (Hn : NoDup (map fst op1)).
  { apply (bool_decide_unpack (NoDup (map fst op1))). vm_compute. exact I. }
  assert (Hp : op1 ≡ₚ op2) by apply Permutation_rev.
  split; [exact Hn|]. split; [exact Hp|].
  exact (block_hash_ignores_key_order (lit "1700000000.5") (lit "1700000030.5")
           op1 op2 [] Hn Hp).
Defined.

(** * The configured addresses *)

Lemma lstrip_head (s : string) : head_space (lstrip s) = false.
Proof.
  induction s as [|c s IH]; [reflexivity|]. cbn [lstrip].
  destruct (py_isspace c) eqn:Hc; [exact IH|]. cbn [head_space]. exact Hc.
Qed.

Lemma lstrip_id (s : string) : head_space s = false -> lstrip s = s.
Proof. destruct s as [|c s]; [reflexivity|]. cbn. intros ->. reflexivity. Qed.

Lemma rstrip_head (s : string) : head_space s = false -> head_space (rstrip s) = false.
Proof.
  destruct s as [|c s]; [reflexivity|]. cbn [head_space rstrip]. intros Hc.
  destruct (rstrip s); [rewrite Hc|]; cbn [head_space]; exact Hc.
Qed.

Lemma rstrip_idem (s : string) : rstrip (rstrip s) = rstrip s.
Proof.
  induction s as [|c s IH]; [reflexivity|]. cbn [rstrip].
  destruct (rstrip s) as [|d r] eqn:Hr.
  - destruct (py_isspace c) eqn:Hc; [reflexivity|]. cbn [rstrip]. rewrite Hc. reflexivity.
  - change (rstrip (String c (String d r)))
      with (match rstrip (String d r) with
            | EmptyString => if py_isspace c then EmptyString else String c EmptyString
            | String _ _ as r' => String c r'
            end).
    rewrite IH. reflexivity.
Qed.

Lemma str_strip_idem (s : string) : str_strip (str_strip s) = str_strip s.
Proof.
  unfold str_strip. rewrite (lstrip_id (rstrip (lstrip s))).
  - apply rstrip_idem.
  - apply rstrip_head, lstrip_head.
Qed.

Lemma lstrip_comma (s : string) : has_comma s = false -> has_comma (lstrip s) = false.
Proof.
  unfold has_comma. induction s as [|c s IH]; [reflexivity|]. cbn [lstrip].
  destruct (py_isspace c); [|trivial]. cbn. intros H.
  apply orb_false_iff in H as [_ H]. apply IH, H.
Qed.

Lemma rstrip_comma (s : string) : has_comma s = false -> has_comma (rstrip s) = false.
Proof.
  unfold has_comma. induction s as [|c s IH]; [reflexivity|]. cbn [rstrip].
  cbn [list_ascii_of_string existsb]. intros H. apply orb_false_iff in H as [Hc H].
  specialize (IH H). destruct (rstrip s) as [|d r].
  - destruct (py_isspace c); [reflexivity|]. cbn. rewrite Hc. reflexivity.
  - cbn [list_ascii_of_string existsb]. rewrite Hc. exact IH.
Qed.

Lemma str_split_no_comma (s : string) :
  Forall (fun a => has_comma a = false) (str_split comma s).
Proof.
  induction s as [|c s IH]; cbn [str_split]; [repeat constructor|].
  destruct (Ascii.eqb c comma) eqn:Hc; [constructor; [reflexivity|exact IH]|].
  destruct (str_split comma s) as [|w ws]; [repeat constructor; cbn|].
  - rewrite Ascii.eqb_sym, Hc. reflexivity.
  - apply Forall_cons in IH as [Hw Hws]. constructor; [|exact Hws].
    unfold has_comma in *. cbn. rewrite Ascii.eqb_sym, Hc. exact Hw.
Qed.

(** X6: whatever [BTC_ADDRESSES] holds, every address the program keeps is
    not empty, has no comma and no white space at either end. *)
Theorem parsed_addresses_are_clean (BTC_ADDRESSES : string) :
  Forall (fun a => clean_address a = true) (parse_btc_addresses BTC_ADDRESSES).
Proof.
  unfold parse_btc_addresses. apply Forall_map, List.Forall_forall. intros a Ha.
  apply filter_In in Ha as [Hin Hne].
  pose proof (str_split_no_comma BTC_ADDRESSES) as Hs.
  rewrite List.Forall_forall in Hs. specialize (Hs a Hin).
  unfold clean_address. rewrite Hne, str_strip_idem, String.eqb_refl.
  unfold str_strip. rewrite (rstrip_comma _ (lstrip_comma _ Hs)). reflexivity.
Qed.

Lemma str_split_piece (a rest : string) :
  has_comma a = false ->
  str_split comma (a +:+ String comma rest) = a :: str_split comma rest.
Proof.
  unfold has_comma. induction a as [|c a IH]; cbn [list_ascii_of_string existsb]; intros H.
  - change (str_split comma (String comma rest) = "" :: str_split comma rest)%string.
    cbn [str_split]. rewrite Ascii.eqb_refl. reflexivity.
  - apply orb_false_iff in H as [Hc H].
    change (str_split comma (String c (a +:+ String comma rest))
            = String c a :: str_split comma rest).
    cbn [str_split]. rewrite Ascii.eqb_sym, Hc, (IH H). reflexivity.
Qed.

Lemma str_split_last (a : string) :
  has_comma a = false -> str_split comma a = [a].
Proof.
  unfold has_comma. induction a as [|c a IH]; cbn [list_ascii_of_string existsb]; intros H.
  - reflexivity.
  - apply orb_false_iff in H as [Hc H]. cbn [str_split].
    rewrite Ascii.eqb_sym, Hc, (IH H). reflexivity.
Qed.

Lemma str_split_join (a : string) (l : list string) :
  Forall (fun a => has_comma a = false) (a :: l) ->
  str_split comma (Json.join "," (a :: l)) = a :: l.
Proof.
  revert a. induction l as [|b l IH]; intros a H; apply Forall_cons in H as [Ha H].
  - cbn [Json.join]. apply str_split_last, Ha.
  - change (Json.join "," (a :: b :: l)) with (a +:+ String comma (Json.join "," (b :: l))).
    rewrite (str_split_piece _ _ Ha), (IH b H). reflexivity.
Qed.

(** X7: addresses that are not empty, have no comma and no white space at
    either end, joined with commas, are read back as they were, in the same
    order. *)
Theorem parse_btc_addresses_join (addrs : list string) :
  Forall (fun a => clean_address a = true) addrs ->
  parse_btc_addresses (Json.join "," addrs) = addrs.
Proof.
  intros Hc. unfold parse_btc_addresses. destruct addrs as [|a l]; [reflexivity|].
  rewrite str_split_join.
  - induction Hc as [|b l' Hb Hl IH]; [reflexivity|]. cbn [List.filter map].
    unfold clean_address in Hb. apply andb_true_iff in Hb as [Hb Hs].
    apply andb_true_iff in Hb as [Hne _]. apply String.eqb_eq in Hs.
    rewrite Hs, Hne. cbn [map]. rewrite Hs, IH. reflexivity.
  - eapply Forall_impl; [exact Hc|]. intros b Hb. unfold clean_address in Hb.
    apply andb_true_iff in Hb as [Hb _]. apply andb_true_iff in Hb as [_ Hb].
    apply negb_true_iff, Hb.
Qed.

Lemma parse_btc_addresses_join_witness :
  let addrs := [wallet; "1A1zP1eP5QGefi2DMPTfTL5SLmv7DivfNa"] in
  Forall (fun a => clean_address a = true) addrs /\
  parse_btc_addresses (Json.join "," addrs) = addrs.
Proof.
  intros addrs.
  assert (H : Forall (fun a => clean_address a = true) addrs).
  { repeat constructor. }
  split; [exact H|]. exact (parse_btc_addresses_join addrs H).
Defined.

Example parse_btc_addresses_known :
  map parse_btc_addresses ["a,b,,c"; ""; ","; " a , b "; "x"]
  = [["a"; "b"; "c"]; []; []; ["a"; "b"]; ["x"]].
Proof. vm_compute. reflexivity. Qed.

(** * Readable answers *)

Lemma key_set_fresh (a : string) (v : float) (out : list (string * float)) :
  a ∉ map fst out ->
  key_set (PStr a) v (str_items out) = str_items (out ++ [(a, v)]).
Proof.
  induction out as [|[k w] out IH]; intros Hn; [reflexivity|].
  cbn [str_items map key_set fst snd app]. cbn [key_eqb].
  destruct (String.eqb k a) eqn:Hk.
  - apply String.eqb_eq in Hk. subst k. exfalso. apply Hn. cbn. apply list_elem_of_here.
  - f_equal. apply IH. intros Hin. apply Hn. cbn. apply list_elem_of_further, Hin.
Qed.

Lemma nonzero_loop_readable (bs : list pyval) :
  forall out : list (string * float),
    forallb readable_entry bs = true ->
    NoDup (map fst (out ++ positive_entries bs)) ->
    nonzero_loop bs (str_items out) = Ok (str_items (out ++ positive_entries bs)).
Proof.
  induction bs as [|b bs IH]; intros out Hr Hn.
  - cbn. rewrite app_nil_r. reflexivity.
  - cbn [forallb] in Hr. apply andb_true_iff in Hr as [Hb Hr].
    unfold readable_entry in Hb.
    change (positive_entries (b :: bs))
      with (match (match entry_total b, asset_of b with
                   | Ok t, Some a => if Float.ltb Float.zero t then Some (a, t) else None
                   | _, _ => None
                   end) with
            | Some y => y :: positive_entries bs
            | None => positive_entries bs
            end) in *.
    cbn [nonzero_loop].
    destruct (entry_total b) as [t|ex] eqn:Ht; [|discriminate]. cbn [bind].
    unfold asset_of in *. destruct (py_getitem b "asset") as [[| | | |a| |]|ex] eqn:Ha;
      try discriminate.
    destruct (Float.ltb Float.zero t) eqn:Hp.
    + cbn [bind hashable]. rewrite key_set_fresh.
      * rewrite (IH (out ++ [(a, t)]) Hr).
        -- rewrite <- app_assoc. reflexivity.
        -- rewrite <- app_assoc. exact Hn.
      * rewrite map_app in Hn. apply NoDup_app in Hn as (_ & Hd & _).
        intros Hin. apply (Hd a Hin). cbn. apply list_elem_of_here.
    + apply (IH out Hr Hn).
Qed.

Lemma has_key_str_items (a : string) (l : list (string * float)) :
  a ∉ map fst l -> has_key a (str_items l) = false.
Proof.
  induction l as [|[k w] l IH]; intros Hn; [reflexivity|].
  cbn. apply orb_false_iff. split.
  - apply String.eqb_neq. intros ->. apply Hn. cbn. apply list_elem_of_here.
  - apply IH. intros Hin. apply Hn. cbn. apply list_elem_of_further, Hin.
Qed.

Lemma spot_loop_stores (e : env) (a : string) (t : float) (l : list (string * float)) :
  forall st, NoDup (map fst l) -> (a, t) ∈ l ->
    prev_balances (fst (spot_loop e (str_items l) st)) !! a = Some t.
Proof.
  induction l as [|[k w] l IH]; intros st Hn Hin.
  - apply elem_of_nil in Hin. destruct Hin.
  - cbn [map fst] in Hn. apply NoDup_cons in Hn as [Hk Hn].
    cbn [str_items map fst snd spot_loop]. fold (str_items l).
    apply elem_of_cons in Hin as [Heq|Hin].
    + injection Heq as -> ->. rewrite spot_loop_lookup by (apply has_key_str_items, Hk).
      cbn [logging set_balance prev_balances]. apply lookup_insert_eq.
    + apply (IH _ Hn Hin).
Qed.

(** * The on-chain loop *)

(** The explorer answers the first request and fails on the second, for an
    address listed twice. *)
Example onchain_repeated_address :
  let st := onchain_loop answers_once 0 [wallet; wallet] (init_state [wallet; wallet]) in
  prev_onchain_btc st !! wallet = Some (lit "1.5") /\
  map is_error_record (log st) = [false; true].
Proof. vm_compute. repeat split. Qed.

(** X9: in the on-chain loop every listed element gets a request of its own.
    An address whose requests all fail, or that is not listed, keeps the
    balance stored before; an address with a successful request gets the
    balance of its last successful request, whatever the other requests
    did; one record is written per element in the order of the list, an
    error record for a failed request; the chain and the spot balances are
    not touched. *)
Theorem onchain_failures_are_isolated (e : env) (addrs : list string) (st : state) :
  let st' := onchain_loop e 0 addrs st in
  (forall addr,
      (forall i, addrs !! i = Some addr ->
         exists ex, get_btc_onchain_balance (explorer e i) addr = Raise ex) ->
      prev_onchain_btc st' !! addr = prev_onchain_btc st !! addr) /\
  (forall i addr bal,
      addrs !! i = Some addr ->
      get_btc_onchain_balance (explorer e i) addr = Ok bal ->
      (forall j, (i < j)%nat -> addrs !! j = Some addr ->
         exists ex, get_btc_onchain_balance (explorer e j) addr = Raise ex) ->
      prev_onchain_btc st' !! addr = Some bal) /\
  (exists recs,
      log st' = log st ++ recs /\ length recs = length addrs /\
      forall i addr, addrs !! i = Some addr -> onchain_record e i addr (recs !! i)) /\
  blockchain st' = blockchain st /\ prev_balances st' = prev_balances st.
Proof.
  cbv zeta. split; [|split; [|split; [|split]]].
  - intros addr H. apply (onchain_loop_skip e addr addrs 0 st H).
  - intros i addr bal Hi Hb Hl. apply (onchain_loop_last e addr bal addrs 0 i st Hi Hb Hl).
  - apply (onchain_loop_records e addrs 0 st).
  - apply (onchain_loop_frame e 0 addrs st).
  - apply (onchain_loop_frame e 0 addrs st).
Qed.

(** * A pass on a readable and on an unreadable answer *)

(** X10: when every entry of the answer can be read (amounts that [float]
    accepts, a [str] asset) and no asset with a total above zero is listed
    twice, [get_nonzero_balances] returns the entries whose [free + locked]
    is above zero, with that total, in the order of the answer. *)
Theorem get_nonzero_balances_readable (d : pydict) (bs : list pyval) :
  dict_get "balances" d = Some (PList bs) ->
  forallb readable_entry bs = true ->
  NoDup (map fst (positive_entries bs)) ->
  get_nonzero_balances (PDict d) = Ok (str_items (positive_entries bs)).
Proof.
  intros Hd Hr Hn. unfold get_nonzero_balances. cbn [py_get bind]. rewrite Hd.
  cbn [py_iter bind]. exact (nonzero_loop_readable bs [] Hr Hn).
Qed.

Lemma get_nonzero_balances_readable_witness :
  let d := [ ("makerCommission", PInt 15);
             ("balances", PList (balances_of (account_answer three_assets))) ] in
  let bs := balances_of (account_answer three_assets) in
  dict_get "balances" d = Some (PList bs) /\
  forallb readable_entry bs = true /\
  NoDup (map fst (positive_entries bs)) /\
  get_nonzero_balances (PDict d)
  = Ok [ (PStr "BRL", lit "50"); (PStr "ETH", lit "2") ].
Proof.
  intros d bs.
  assert (H1 : dict_get "balances" d = Some (PList bs)) by reflexivity.
  assert (H2 : forallb readable_entry bs = true) by (vm_compute; reflexivity).
  assert (H3 : NoDup (map fst (positive_entries bs))).
  { apply (bool_decide_unpack (NoDup (map fst (positive_entries bs)))).
    vm_compute. exact I. }
  split; [exact H1|]. split; [exact H2|]. split; [exact H3|].
  rewrite (get_nonzero_balances_readable d bs H1 H2 H3). vm_compute. reflexivity.
Defined.

(** X11: after a pass that received a readable answer in which no asset
    with a total above zero is listed twice, the stored balance of every
    asset the answer gives a total above zero is that total, and it is the
    balance the rule reads. *)
Theorem pass_stores_fetched_totals (e : env) (st : state) (d : pydict) (bs : list pyval)
    (asset : string) (total : float) :
  spot_account e = Ok (PDict d) ->
  dict_get "balances" d = Some (PList bs) ->
  forallb readable_entry bs = true ->
  NoDup (map fst (positive_entries bs)) ->
  (asset, total) ∈ positive_entries bs ->
  prev_balances (monitor_cycle e st) !! asset = Some total /\
  balance_of (prev_balances (monitor_cycle e st)) asset = total.
Proof.
  intros He Hd Hr Hn Hin.
  assert (H : prev_balances (monitor_cycle e st) !! asset = Some total).
  { rewrite monitor_cycle_prev_balances, He. cbn [bind].
    unfold get_nonzero_balances. cbn [py_get bind]. rewrite Hd. cbn [py_iter bind].
    rewrite (nonzero_loop_readable bs [] Hr Hn
             : nonzero_loop bs [] = Ok (str_items (positive_entries bs))).
    apply (spot_loop_stores e asset total _ st Hn Hin). }
  split; [exact H|]. unfold balance_of. rewrite H. reflexivity.
Qed.

Lemma pass_stores_fetched_totals_witness :
  let e := with_account (account_answer three_assets) offline in
  let st := run ascii_upper [wallet] [Cycle pass_one] in
  let d := [ ("makerCommission", PInt 15);
             ("balances", PList (balances_of (account_answer three_assets))) ] in
  let bs := balances_of (account_answer three_assets) in
  spot_account e = Ok (PDict d) /\
  (("ETH", lit "2") ∈ positive_entries bs) /\
  prev_balances (monitor_cycle e st) !! "ETH" = Some (lit "2") /\
  balance_of (prev_balances (monitor_cycle e st)) "ETH" = lit "2".
Proof.
  intros e st d bs.
  assert (H0 : spot_account e = Ok (PDict d)) by reflexivity.
  assert (H1 : dict_get "balances" d = Some (PList bs)) by reflexivity.
  assert (H2 : forallb readable_entry bs = true) by (vm_compute; reflexivity).
  assert (H3 : NoDup (map fst (positive_entries bs))).
  { apply (bool_decide_unpack (NoDup (map fst (positive_entries bs)))).
    vm_compute. exact I. }
  assert (H4 : ("ETH", lit "2") ∈ positive_entries bs).
  { assert (Hpe : positive_entries bs = [("BRL", lit "50"); ("ETH", lit "2")])
      by (vm_compute; reflexivity).
    rewrite Hpe. apply list_elem_of_further, list_elem_of_here. }
  split; [exact H0|]. split; [exact H4|].
  exact (pass_stores_fetched_totals e st d bs "ETH" (lit "2") H0 H1 H2 H3 H4).
Defined.

Lemma nonzero_loop_raises (bs : list pyval) (b : pyval) (ex0 : exn) :
  b ∈ bs -> entry_total b = Raise ex0 ->
  forall out, exists ex, nonzero_loop bs out = Raise ex.
Proof.
  intros Hin Hb. induction bs as [|b0 bs IH]; intros out.
  - apply elem_of_nil in Hin. destruct Hin.
  - cbn [nonzero_loop]. destruct (entry_total b0) as [t|ex] eqn:Ht; cbn [bind]; [|eauto].
    assert (Hin' : b ∈ bs).
    { apply elem_of_cons in Hin as [->|Hin]; [congruence|exact Hin]. }
    destruct (Float.ltb Float.zero t); [|apply (IH Hin')].
    destruct (py_getitem b0 "asset") as [k|ex]; cbn [bind]; [|eauto].
    destruct (hashable k); [apply (IH Hin')|eauto].
Qed.

(** X12: one entry whose amounts cannot be read, anywhere in the answer,
    aborts the pass: no balance of the answer is stored, the on-chain loop
    and the rule do not run, and the only change is one general error
    record in the log. *)
Theorem unreadable_entry_aborts_pass (e : env) (st : state) (d : pydict) (bs : list pyval)
    (b : pyval) (ex0 : exn) :
  spot_account e = Ok (PDict d) ->
  dict_get "balances" d = Some (PList bs) ->
  b ∈ bs ->
  entry_total b = Raise ex0 ->
  exists ex, monitor_cycle e st = logging (LogGeneralError ex) st.
Proof.
  intros He Hd Hin Hb. unfold monitor_cycle, cycle_body. rewrite He. cbn [bind].
  unfold get_nonzero_balances. cbn [py_get bind]. rewrite Hd. cbn [py_iter bind].
  destruct (nonzero_loop_raises bs b ex0 Hin Hb []) as [ex ->]. eauto.
Qed.

Lemma unreadable_entry_aborts_pass_witness :
  let e := with_btc_price "99999.00" (with_account unreadable_account (accepting pass_one)) in
  let st := init_state [wallet] in
  let b := PDict [("asset", PStr "BTC"); ("free", PStr "abc"); ("locked", PStr "0.00000000")] in
  spot_account e = Ok unreadable_account /\
  entry_total b = Raise ValueError /\
  exists ex, monitor_cycle e st = logging (LogGeneralError ex) st.
Proof.
  intros e st b.
  assert (H0 : spot_account e = Ok unreadable_account) by reflexivity.
  assert (H1 : dict_get "balances"
                 [ ("makerCommission", PInt 15);
                   ("balances", PList (balances_of unreadable_account)) ]
               = Some (PList (balances_of unreadable_account))) by reflexivity.
  assert (H2 : b ∈ balances_of unreadable_account).
  { apply list_elem_of_further, list_elem_of_here. }
  assert (H3 : entry_total b = Raise ValueError) by (vm_compute; reflexivity).
  split; [exact H0|]. split; [exact H3|].
  exact (unreadable_entry_aborts_pass e st _ _ b ValueError H0 H1 H2 H3).
Defined.

Lemma ordem_try_accepted (e : env) (sd : string) (qty : float) (st : state) (order : pyval) :
  place_order e "BTCBRL" sd qty = Ok order ->
  ordem_try e sd qty st
  = let b := next_block (now e)
               (trade_operation sd qty (get_brl_price (fun _ => btc_ticker e) "BTC"))
               (blockchain st) in
    (Response 200 (OrderBody order b), with_blockchain (blockchain st ++ [b]) st).
Proof.
  intros Hp. unfold ordem_try. rewrite Hp. cbn [bind]. rewrite create_block_eq. reflexivity.
Qed.

Lemma ordem_try_refused (e : env) (sd : string) (qty : float) (st : state) (ex : exn) :
  place_order e "BTCBRL" sd qty = Raise ex ->
  ordem_try e sd qty st = (Response 500 (ErroBody (ErroExn ex)), st).
Proof. intros Hp. unfold ordem_try. rewrite Hp. reflexivity. Qed.




(** X14: the outcomes of [api_ordem] on a JSON object: 400 and nothing done
    when side or quantity is missing; an escaping [AttributeError] when
    side is not a string, an escaping exception of [float] when quantity
    cannot be converted; otherwise the order is submitted with the
    upper-cased side and the converted quantity, unchecked, and the answer
    is 500 with the state unchanged when the exchange refuses, 200 with
    one new block holding side, quantity and the price read when it
    accepts. *)
Theorem api_ordem_outcomes (upper : string -> string) (e : env) (d : pydict) (st : state) :
  let r := api_ordem upper e (PDict d) st in
  match dict_get "side" d, dict_get "quantity" d with
  | None, _ | _, None => r = (Response 400 (ErroBody ErroMissing), st)
  | Some (PStr s), Some q =>
      match py_float q with
      | Raise ex => r = (Unhandled ex, st)
      | Ok qty =>
          match place_order e "BTCBRL" (upper s) qty with
          | Raise ex => r = (Response 500 (ErroBody (ErroExn ex)), st)
          | Ok order =>
              exists b,
                r = (Response 200 (OrderBody order b),
                     with_blockchain (blockchain st ++ [b]) st) /\
                timestamp b = now e /\
                operation b
                = trade_operation (upper s) qty (get_brl_price (fun _ => btc_ticker e) "BTC")
          end
      end
  | Some _, Some _ => r = (Unhandled AttributeError, st)
  end.
Proof.
  cbv zeta. unfold api_ordem, fields_missing.
  destruct d as [|kv d']; [reflexivity|]. set (d := kv :: d').
  change (truthy (PDict d)) with true. cbn [negb py_contains py_getitem bind].
  destruct (dict_get "side" d) as [s|] eqn:Hs; cbn [negb bind]; [|reflexivity].
  destruct (dict_get "quantity" d) as [q|] eqn:Hq; cbn [negb bind];
    [|destruct s; reflexivity].
  destruct s as [| | | |s| |]; cbn [py_upper bind]; try reflexivity.
  destruct (py_float q) as [qty|ex]; cbn [bind]; [|reflexivity].
  destruct (place_order e "BTCBRL" (upper s) qty) as [order|ex] eqn:Hp.
  - rewrite (ordem_try_accepted e (upper s) qty st order Hp). cbv zeta.
    eexists. repeat split.
  - apply (ordem_try_refused e (upper s) qty st ex Hp).
Qed.

Lemma submit_and_record_addresses e sd q price st :
  btc_addresses (submit_and_record e sd q price st) = btc_addresses st.
Proof.
  unfold submit_and_record.
  destruct (let* order := place_order e "BTCBRL" (side_str sd) q in _) as [[b c]|ex];
    reflexivity.
Qed.

Lemma trade_step_addresses (e : env) (st : state) :
  btc_addresses (fst (trade_step e st)) = btc_addresses st.
Proof.
  rewrite trade_step_decide.
  destruct (decide_order _ _) as [[[sd q]|]|ex]; cbn [fst]; try reflexivity.
  apply submit_and_record_addresses.
Qed.

Lemma onchain_loop_configured (e : env) (st : state) :
  onchain_configured st -> onchain_configured (onchain_loop e 0 (btc_addresses st) st).
Proof.
  intros Hc addr v Hv.
  destruct (onchain_loop_frame e 0 (btc_addresses st) st) as (_ & _ & Ha). cbn zeta in Ha.
  rewrite Ha. destruct (decide (addr ∈ btc_addresses st)) as [Hin|Hn]; [exact Hin|].
  rewrite (onchain_loop_unlisted e addr (btc_addresses st) 0 st Hn) in Hv.
  exact (Hc addr v Hv).
Qed.

Lemma monitor_cycle_configured (e : env) (st : state) :
  onchain_configured st -> onchain_configured (monitor_cycle e st).
Proof.
  intros Hc. unfold monitor_cycle, cycle_body.
  destruct (let* acct := spot_account e in get_nonzero_balances acct) as [nonzero|ex];
    [|exact Hc].
  pose proof (spot_loop_frame e nonzero st) as (_ & H1 & H1').
  destruct (spot_loop e nonzero st) as [st1 [[]|ex]]; cbn [fst] in H1, H1'.
  - assert (Hc1 : onchain_configured st1).
    { unfold onchain_configured. rewrite H1, H1'. exact Hc. }
    pose proof (onchain_loop_configured e st1 Hc1) as Hc2.
    set (st2 := onchain_loop e 0 (btc_addresses st1) st1) in *.
    pose proof (trade_step_frame e st2) as (_ & _ & H3).
    pose proof (trade_step_addresses e st2) as H3'.
    assert (Hc3 : onchain_configured (fst (trade_step e st2))).
    { unfold onchain_configured. rewrite H3, H3'. exact Hc2. }
    destruct (trade_step e st2) as [st3 [[]|ex]]; exact Hc3.
  - unfold onchain_configured. cbn [logging prev_onchain_btc btc_addresses].
    rewrite H1, H1'. exact Hc.
Qed.

Lemma api_ordem_addresses (upper : string -> string) (e : env) (data : pyval) (st : state) :
  btc_addresses (snd (api_ordem upper e data st)) = btc_addresses st.
Proof.
  ordem_cases data; try reflexivity.
  unfold ordem_try.
  destruct (let* order := place_order e "BTCBRL" _ _ in _) as [[order [b c]]|ex];
    reflexivity.
Qed.

Lemma step_configured (upper : string -> string) (st : state) (ev : event) :
  onchain_configured st -> onchain_configured (step upper st ev).
Proof.
  intros Hc. destruct ev as [e| | |e data]; cbn [step]; try exact Hc.
  - apply monitor_cycle_configured, Hc.
  - unfold onchain_configured. rewrite api_ordem_addresses.
    destruct (api_ordem_frame upper e data st) as (_ & _ & -> & _). exact Hc.
Qed.

Lemma step_addresses (upper : string -> string) (st : state) (ev : event) :
  btc_addresses (step upper st ev) = btc_addresses st.
Proof.
  destruct ev as [e| | |e data]; cbn [step]; try reflexivity.
  - unfold monitor_cycle, cycle_body.
    destruct (let* acct := spot_account e in get_nonzero_balances acct) as [nonzero|ex];
      [|reflexivity].
    pose proof (spot_loop_frame e nonzero st) as (_ & _ & H1).
    destruct (spot_loop e nonzero st) as [st1 [[]|ex]]; cbn [fst] in H1; [|exact H1].
    pose proof (onchain_loop_frame e 0 (btc_addresses st1) st1) as (_ & _ & H2).
    cbn zeta in H2. set (st2 := onchain_loop e 0 (btc_addresses st1) st1) in *.
    pose proof (trade_step_addresses e st2) as H3.
    destruct (trade_step e st2) as [st3 [[]|ex]]; cbn [fst] in H3;
      cbn [logging btc_addresses]; congruence.
  - apply api_ordem_addresses.
Qed.

Lemma reachable_configured (upper : string -> string) addresses (evs : list event) :
  btc_addresses (run upper addresses evs) = addresses /\
  onchain_configured (run upper addresses evs).
Proof.
  induction evs as [|ev evs [IH1 IH2]] using rev_ind.
  - split; [reflexivity|]. intros addr v Hv. cbn in Hv. rewrite lookup_empty in Hv.
    discriminate.
  - rewrite run_snoc. split.
    + rewrite step_addresses. exact IH1.
    + apply step_configured, IH2.
Qed.

(** X15: in every reachable state [/saldo] answers 200, every spot balance
    it reports is above zero, every address it reports a balance for is
    one of the configured ones, and the configured addresses never
    change. *)
Theorem saldo_reports (upper : string -> string) (addresses : list string)
    (evs : list event) :
  exists spot onchain,
    api_saldo (run upper addresses evs) = Response 200 (SaldoBody spot onchain) /\
    map_Forall (fun _ v => Float.ltb Float.zero v = true) spot /\
    map_Forall (fun addr _ => addr ∈ addresses) onchain /\
    btc_addresses (run upper addresses evs) = addresses.
Proof.
  destruct (reachable_configured upper addresses evs) as [H1 H2].
  eexists _, _. split; [reflexivity|]. split; [|split].
  - apply (reachable_balances_positive upper addresses evs).
  - unfold onchain_configured in H2. rewrite H1 in H2. exact H2.
  - exact H1.
Qed.
